(** * inforMED: the Bayesian diagnostic engine

    A shallow embedding of [data.py] (the knowledge base) and [engine.py]
    (entropy, Bayesian update, information gain, next-question selection),
    followed by the properties of the engine.

    Numbers.  The program computes with IEEE doubles; this development reads
    every float as the real number it denotes and every float operation as
    the exact operation on [R].  Rounding is therefore outside the model, and
    the results below are statements of exact arithmetic.  Where a statement
    turns on the rounding itself, module [binary64] gives the update on
    primitive floats.

    Failure.  Python raises where a dictionary has no such key, where a list
    has no such index and where a float is divided by zero; [np.log2] leaves
    the reals (-inf, nan) outside its domain.  All of these are outcomes of
    the [result] monad, so that "returns a value" is a statement that can be
    proved rather than a property of the encoding. *)

From Stdlib Require Import Reals Lra Lia List String Sorted PrimFloat.
From stdpp Require Import base list gmap strings.

Open Scope string_scope.
Open Scope list_scope.
Open Scope R_scope.

(** ** Exceptions and the result monad *)

Inductive exn : Type :=
  | KeyError            (* dict[key] with a missing key *)
  | IndexError          (* list[i] past the end *)
  | ValueError          (* list.index(x) with x absent *)
  | ZeroDivisionError   (* float / 0.0 *)
  | FloatingPointError. (* a float result that is no real: -inf, nan *)

Inductive result (A : Type) : Type :=
  | Ok (a : A)
  | Raise (e : exn).

Arguments Ok {A} a.
Arguments Raise {A} e.

#[global] Instance result_ret : MRet result := fun _ a => Ok a.

#[global] Instance result_bind : MBind result := fun _ _ f m =>
  match m with
  | Ok a => f a
  | Raise e => Raise e
  end.

(** A [for] loop that threads an accumulator and stops at the first raise. *)
Fixpoint foldM {A S : Type} (step : S -> A -> result S) (l : list A) (s : S)
  : result S :=
  match l with
  | [] => Ok s
  | x :: l' => s' ← step s x; foldM step l' s'
  end.

(** ** Python primitives *)

(** [d[k]] on a dict written as a literal: the entries in source order. *)
Fixpoint dict_get {V : Type} (d : list (string * V)) (k : string) : result V :=
  match d with
  | [] => Raise KeyError
  | (k', v) :: d' => if String.eqb k' k then Ok v else dict_get d' k
  end.

(** [d.keys()], in insertion order. *)
Definition dict_keys {V : Type} (d : list (string * V)) : list string :=
  map fst d.

(** [l[i]] for a non-negative index. *)
Definition list_get {A : Type} (l : list A) (i : nat) : result A :=
  match l !! i with
  | Some x => Ok x
  | None => Raise IndexError
  end.

(** [l.index(x)]: position of the first occurrence. *)
Fixpoint list_index (l : list string) (x : string) : result nat :=
  match l with
  | [] => Raise ValueError
  | y :: l' => if String.eqb y x then Ok 0%nat else i ← list_index l' x; Ok (S i)
  end.

(** Python's builtin [sum] and [np.sum]: start from 0, add left to right. *)
Definition py_sum (l : list R) : R := fold_left Rplus l 0.

(** [x / y] on Python floats. *)
Definition py_div (x y : R) : result R :=
  if Req_dec_T y 0 then Raise ZeroDivisionError else Ok (x / y).

(** [np.log2]: a real number on positive arguments only.  At 0 numpy gives
    -inf and below 0 it gives nan, with a RuntimeWarning; neither is a real
    number, and the model reports both as [FloatingPointError], the exception
    numpy itself raises for them under [np.errstate(all='raise')]. *)
Definition np_log2 (p : R) : result R :=
  if Rlt_dec 0 p then Ok (ln p / ln 2) else Raise FloatingPointError.

(** [enumerate(l)] *)
Definition enumerate {A : Type} (l : list A) : list (nat * A) :=
  imap (fun i x => (i, x)) l.

(** [max(l)] on floats: the first maximal element; raises on the empty list. *)
Definition py_max (l : list R) : result R :=
  match l with
  | [] => Raise ValueError
  | x :: l' => Ok (fold_left (fun m y => if Rlt_dec m y then y else m) l' x)
  end.

(** [l.index(x)] on floats. *)
Fixpoint list_index_R (l : list R) (x : R) : result nat :=
  match l with
  | [] => Raise ValueError
  | y :: l' => if Req_dec_T y x then Ok 0%nat else i ← list_index_R l' x; Ok (S i)
  end.

(** [np.mean]: nan (no real) on the empty list. *)
Definition np_mean (l : list R) : result R :=
  match l with
  | [] => Raise FloatingPointError
  | _ => Ok (py_sum l / INR (length l))
  end.

(** [sorted(l, key=key, reverse=True)] and [l.sort(key=key, reverse=True)]:
    descending by key, elements of equal key in their original order.  The
    result of a stable sort does not depend on the algorithm; it is written
    here as insertion from the right. *)
Fixpoint insert_desc {A : Type} (key : A -> R) (x : A) (l : list A) : list A :=
  match l with
  | [] => [x]
  | y :: l' => if Rlt_dec (key x) (key y) then y :: insert_desc key x l' else x :: l
  end.

Definition sorted_desc {A : Type} (key : A -> R) (l : list A) : list A :=
  foldr (insert_desc key) [] l.

(** A [while] loop.  [body] returns [inl st'] to go round again and [inr r]
    to leave the loop ([break], or the condition is false) with [r]; [None]
    means that [fuel] turns were not enough. *)
Fixpoint while {St A : Type} (fuel : nat) (body : St -> result (St + A))
    (st : St) : option (result A) :=
  match fuel with
  | O => None
  | S fuel' =>
    match body st with
    | Raise e => Some (Raise e)
    | Ok (inr r) => Some (Ok r)
    | Ok (inl st') => while fuel' body st'
    end
  end.

(** ** data.py: the knowledge base *)

Module data.

Definition DIAGNOSES : list string :=
  [ "Migraine"; "Tension-Type"; "Cluster"; "Sinus"; "Medication Overuse";
    "Cervicogenic"; "Trigeminal Neuralgia"; "Hypertensive" ].

Definition NUM_DIAGNOSES : nat := length DIAGNOSES.

Definition PRIOR_PROBABILITY : R := 1.0 / INR NUM_DIAGNOSES.

Definition SYMPTOMS : list (string * string) :=
  [ ("S1", "Is your pain best described as throbbing or pulsating?");
    ("S2", "Is the pain located primarily on only one side of your head?");
    ("S3", "Have you experienced nausea or vomiting with this headache?");
    ("S4", "Does bright light or loud noise bother you during the headache?");
    ("S5", "Would you rate the pain intensity as severe or disabling?");
    ("S6", "Did you experience eye redness, tearing, or nasal congestion on the side of the pain?");
    ("S7", "Does the pain typically last 4-72 hours if untreated?");
    ("S8", "Does physical activity make the headache worse?");
    ("S9", "Have you experienced visual disturbances (aura) before the headache?");
    ("S10", "Is there a family history of similar headaches?");
    ("S11", "Does the pain occur in brief attacks (15-180 minutes)?");
    ("S12", "Do you feel restless or agitated during the headache?");
    ("S13", "Does the pain always occur on the same side?");
    ("S14", "Do you experience drooping eyelid or constricted pupil on the pain side?");
    ("S15", "Is there facial pressure or fullness, especially around sinuses?");
    ("S16", "Do you have thick nasal discharge (yellow or green)?");
    ("S17", "Is the pain often described as a tight band around the head?");
    ("S18", "Does the pain feel like steady pressure rather than pulsating?");
    ("S19", "Can you continue daily activities despite the headache?");
    ("S20", "Did the headache follow a recent illness (e.g., cold, flu)?");
    ("S21", "Do you take pain medication more than 10-15 days per month?");
    ("S22", "Have your headaches become more frequent over time?");
    ("S23", "Does the pain worsen or start upon waking in the morning?");
    ("S24", "Is the pain triggered by neck movement or sustained awkward postures?");
    ("S25", "Do you have limited range of motion in your neck?");
    ("S26", "Is the pain described as sharp, shooting, or electric shock-like?");
    ("S27", "Does touching certain areas of your face trigger the pain?");
    ("S28", "Does the pain last only seconds to 2 minutes per episode?");
    ("S29", "Do you have high blood pressure or hypertension?");
    ("S30", "Does the pain feel like pressure at the back of the head?");
    ("S31", "Have you experienced dizziness or visual changes with the headache?");
    ("S32", "Does the pain radiate from the neck to the front of the head?");
    ("S33", "Is the headache present daily or nearly every day?");
    ("S34", "Do you experience muscle tenderness in the neck or shoulders?");
    ("S35", "Does the pain occur in multiple episodes throughout the day?");
    ("S36", "Have you recently stopped or significantly reduced your caffeine intake?") ].

Definition CPT : list (string * list (string * R)) :=
  [
    ("Migraine",
      [ ("S1", 0.90); ("S2", 0.75); ("S3", 0.85); ("S4", 0.90); ("S5", 0.80); ("S6", 0.10);
        ("S7", 0.85); ("S8", 0.85); ("S9", 0.30); ("S10", 0.70); ("S11", 0.05); ("S12", 0.10);
        ("S13", 0.40); ("S14", 0.05); ("S15", 0.15); ("S16", 0.05); ("S17", 0.10); ("S18", 0.15);
        ("S19", 0.20); ("S20", 0.15); ("S21", 0.40); ("S22", 0.50); ("S23", 0.30); ("S24", 0.15);
        ("S25", 0.20); ("S26", 0.05); ("S27", 0.05); ("S28", 0.02); ("S29", 0.15); ("S30", 0.20);
        ("S31", 0.35); ("S32", 0.10); ("S33", 0.25); ("S34", 0.30); ("S35", 0.15); ("S36", 0.40) ]);
    ("Tension-Type",
      [ ("S1", 0.10); ("S2", 0.20); ("S3", 0.10); ("S4", 0.20); ("S5", 0.30); ("S6", 0.05);
        ("S7", 0.40); ("S8", 0.20); ("S9", 0.02); ("S10", 0.30); ("S11", 0.05); ("S12", 0.10);
        ("S13", 0.10); ("S14", 0.02); ("S15", 0.10); ("S16", 0.05); ("S17", 0.90); ("S18", 0.85);
        ("S19", 0.70); ("S20", 0.10); ("S21", 0.35); ("S22", 0.40); ("S23", 0.40); ("S24", 0.30);
        ("S25", 0.25); ("S26", 0.05); ("S27", 0.15); ("S28", 0.02); ("S29", 0.15); ("S30", 0.40);
        ("S31", 0.15); ("S32", 0.20); ("S33", 0.45); ("S34", 0.70); ("S35", 0.10); ("S36", 0.50) ]);
    ("Cluster",
      [ ("S1", 0.40); ("S2", 0.95); ("S3", 0.15); ("S4", 0.30); ("S5", 0.95); ("S6", 0.95);
        ("S7", 0.10); ("S8", 0.30); ("S9", 0.05); ("S10", 0.15); ("S11", 0.95); ("S12", 0.90);
        ("S13", 0.85); ("S14", 0.60); ("S15", 0.20); ("S16", 0.10); ("S17", 0.05); ("S18", 0.10);
        ("S19", 0.05); ("S20", 0.05); ("S21", 0.10); ("S22", 0.30); ("S23", 0.40); ("S24", 0.10);
        ("S25", 0.10); ("S26", 0.30); ("S27", 0.10); ("S28", 0.05); ("S29", 0.15); ("S30", 0.10);
        ("S31", 0.20); ("S32", 0.10); ("S33", 0.40); ("S34", 0.20); ("S35", 0.85); ("S36", 0.10) ]);
    ("Sinus",
      [ ("S1", 0.30); ("S2", 0.50); ("S3", 0.10); ("S4", 0.15); ("S5", 0.40); ("S6", 0.30);
        ("S7", 0.50); ("S8", 0.40); ("S9", 0.02); ("S10", 0.10); ("S11", 0.05); ("S12", 0.05);
        ("S13", 0.40); ("S14", 0.02); ("S15", 0.95); ("S16", 0.85); ("S17", 0.10); ("S18", 0.60);
        ("S19", 0.50); ("S20", 0.80); ("S21", 0.15); ("S22", 0.25); ("S23", 0.60); ("S24", 0.20);
        ("S25", 0.15); ("S26", 0.10); ("S27", 0.15); ("S28", 0.02); ("S29", 0.15); ("S30", 0.20);
        ("S31", 0.25); ("S32", 0.10); ("S33", 0.30); ("S34", 0.20); ("S35", 0.10); ("S36", 0.15) ]);
    ("Medication Overuse",
      [ ("S1", 0.50); ("S2", 0.50); ("S3", 0.40); ("S4", 0.50); ("S5", 0.60); ("S6", 0.10);
        ("S7", 0.60); ("S8", 0.40); ("S9", 0.10); ("S10", 0.40); ("S11", 0.05); ("S12", 0.20);
        ("S13", 0.30); ("S14", 0.02); ("S15", 0.20); ("S16", 0.05); ("S17", 0.40); ("S18", 0.50);
        ("S19", 0.40); ("S20", 0.10); ("S21", 0.95); ("S22", 0.90); ("S23", 0.85); ("S24", 0.15);
        ("S25", 0.20); ("S26", 0.10); ("S27", 0.15); ("S28", 0.02); ("S29", 0.15); ("S30", 0.30);
        ("S31", 0.30); ("S32", 0.20); ("S33", 0.90); ("S34", 0.40); ("S35", 0.30); ("S36", 0.60) ]);
    ("Cervicogenic",
      [ ("S1", 0.20); ("S2", 0.80); ("S3", 0.20); ("S4", 0.30); ("S5", 0.50); ("S6", 0.15);
        ("S7", 0.60); ("S8", 0.40); ("S9", 0.05); ("S10", 0.15); ("S11", 0.10); ("S12", 0.10);
        ("S13", 0.75); ("S14", 0.05); ("S15", 0.15); ("S16", 0.05); ("S17", 0.30); ("S18", 0.60);
        ("S19", 0.40); ("S20", 0.10); ("S21", 0.30); ("S22", 0.40); ("S23", 0.60); ("S24", 0.90);
        ("S25", 0.85); ("S26", 0.25); ("S27", 0.40); ("S28", 0.02); ("S29", 0.15); ("S30", 0.70);
        ("S31", 0.35); ("S32", 0.90); ("S33", 0.50); ("S34", 0.90); ("S35", 0.20); ("S36", 0.20) ]);
    ("Trigeminal Neuralgia",
      [ ("S1", 0.05); ("S2", 0.95); ("S3", 0.05); ("S4", 0.10); ("S5", 0.98); ("S6", 0.20);
        ("S7", 0.02); ("S8", 0.10); ("S9", 0.02); ("S10", 0.10); ("S11", 0.05); ("S12", 0.30);
        ("S13", 0.90); ("S14", 0.02); ("S15", 0.10); ("S16", 0.05); ("S17", 0.05); ("S18", 0.05);
        ("S19", 0.10); ("S20", 0.05); ("S21", 0.15); ("S22", 0.40); ("S23", 0.20); ("S24", 0.15);
        ("S25", 0.10); ("S26", 0.98); ("S27", 0.95); ("S28", 0.95); ("S29", 0.15); ("S30", 0.10);
        ("S31", 0.15); ("S32", 0.10); ("S33", 0.30); ("S34", 0.15); ("S35", 0.90); ("S36", 0.10) ]);
    ("Hypertensive",
      [ ("S1", 0.40); ("S2", 0.30); ("S3", 0.30); ("S4", 0.25); ("S5", 0.60); ("S6", 0.15);
        ("S7", 0.40); ("S8", 0.50); ("S9", 0.10); ("S10", 0.25); ("S11", 0.10); ("S12", 0.20);
        ("S13", 0.25); ("S14", 0.02); ("S15", 0.15); ("S16", 0.05); ("S17", 0.30); ("S18", 0.60);
        ("S19", 0.40); ("S20", 0.10); ("S21", 0.20); ("S22", 0.50); ("S23", 0.70); ("S24", 0.20);
        ("S25", 0.20); ("S26", 0.15); ("S27", 0.10); ("S28", 0.02); ("S29", 0.95); ("S30", 0.75);
        ("S31", 0.70); ("S32", 0.30); ("S33", 0.60); ("S34", 0.30); ("S35", 0.25); ("S36", 0.25) ]) ].

End data.

(** ** engine.py *)

Module engine.
Import data.

(** [np.log2(p) if p > 0 else 0] *)
Definition log2 (p : R) : result R :=
  if Rlt_dec 0 p then np_log2 p else Ok 0.

Definition calculate_entropy (P : list R) : result R :=
  logs ← mapM log2 P;
  let H := - py_sum (zip_with Rmult P logs) in
  Ok H.

Definition bayesian_update (current_P : list R) (symptom_key : string)
    (answer_is_yes : bool) : result (list R) :=
  new_P ← mapM (fun diagnosis =>
             row ← dict_get CPT diagnosis;
             P_S_given_D ← dict_get row symptom_key;
             let P_S_given_D :=
               if negb answer_is_yes then 1.0 - P_S_given_D else P_S_given_D in
             i ← list_index DIAGNOSES diagnosis;
             p ← list_get current_P i;
             let numerator := P_S_given_D * p in
             Ok numerator)
           DIAGNOSES;
  let denominator := py_sum new_P in
  if Req_dec_T denominator 0 then
    Ok (replicate NUM_DIAGNOSES (1.0 / INR NUM_DIAGNOSES))
  else
    mapM (fun p => py_div p denominator) new_P.

Definition calculate_information_gain (current_P : list R)
    (symptom_key : string) : result R :=
  H_current ← calculate_entropy current_P;
  terms ← mapM (fun '(i, d) =>
             row ← dict_get CPT d;
             c ← dict_get row symptom_key;
             p ← list_get current_P i;
             Ok (c * p))
           (enumerate DIAGNOSES);
  let P_yes := py_sum terms in
  let P_no := 1.0 - P_yes in
  P_D_given_yes ← bayesian_update current_P symptom_key true;
  H_yes ← calculate_entropy P_D_given_yes;
  P_D_given_no ← bayesian_update current_P symptom_key false;
  H_no ← calculate_entropy P_D_given_no;
  let E_H_new := (P_yes * H_yes) + (P_no * H_no) in
  let IG := H_current - E_H_new in
  Ok IG.

(** The loop body of [get_next_question]: state is [(max_ig, best_question_key)]. *)
Definition consider (current_P : list R) (st : R * option string)
    (symptom_key : string) : result (R * option string) :=
  let '(max_ig, best_question_key) := st in
  ig ← calculate_information_gain current_P symptom_key;
  if Rlt_dec max_ig ig then Ok (ig, Some symptom_key)
  else Ok (max_ig, best_question_key).

(** Returns [(question_text, symptom_key, ig_value)]; [None] is Python's. *)
Definition get_next_question (current_P : list R) (asked_symptoms : gset string)
  : result (option string * option string * R) :=
  let max_ig := -1 in
  let best_question_key : option string := None in
  let unasked_keys :=
    filter (fun k => k ∉ asked_symptoms) (dict_keys SYMPTOMS) in
  match unasked_keys with
  | [] => Ok (None, None, 0)
  | _ =>
    '(max_ig, best_question_key) ←
      foldM (consider current_P) unasked_keys (max_ig, best_question_key);
    match best_question_key with
    | None => Raise KeyError   (* SYMPTOMS[None] *)
    | Some k =>
      text ← dict_get SYMPTOMS k;
      Ok (Some text, Some k, max_ig)
    end
  end.

End engine.

(** ** engine.py in double precision

    The same update with every number a binary64 float and every operation
    the IEEE operation Python performs (round to nearest even), on Rocq's
    primitive floats.  The decimal literals of [data.py] are read, as Python
    reads them, as the nearest double.  This is the yardstick for statements
    that speak of exact equality of floats; the lookups, the loop and the
    zero guard are those of [engine.bayesian_update]. *)

Module binary64.
Import data.

Local Open Scope float_scope.
Local Set Warnings "-inexact-float".

Definition CPT : list (string * list (string * float)) :=
  [
    ("Migraine",
      [ ("S1", 0.90); ("S2", 0.75); ("S3", 0.85); ("S4", 0.90); ("S5", 0.80); ("S6", 0.10);
        ("S7", 0.85); ("S8", 0.85); ("S9", 0.30); ("S10", 0.70); ("S11", 0.05); ("S12", 0.10);
        ("S13", 0.40); ("S14", 0.05); ("S15", 0.15); ("S16", 0.05); ("S17", 0.10); ("S18", 0.15);
        ("S19", 0.20); ("S20", 0.15); ("S21", 0.40); ("S22", 0.50); ("S23", 0.30); ("S24", 0.15);
        ("S25", 0.20); ("S26", 0.05); ("S27", 0.05); ("S28", 0.02); ("S29", 0.15); ("S30", 0.20);
        ("S31", 0.35); ("S32", 0.10); ("S33", 0.25); ("S34", 0.30); ("S35", 0.15); ("S36", 0.40) ]);
    ("Tension-Type",
      [ ("S1", 0.10); ("S2", 0.20); ("S3", 0.10); ("S4", 0.20); ("S5", 0.30); ("S6", 0.05);
        ("S7", 0.40); ("S8", 0.20); ("S9", 0.02); ("S10", 0.30); ("S11", 0.05); ("S12", 0.10);
        ("S13", 0.10); ("S14", 0.02); ("S15", 0.10); ("S16", 0.05); ("S17", 0.90); ("S18", 0.85);
        ("S19", 0.70); ("S20", 0.10); ("S21", 0.35); ("S22", 0.40); ("S23", 0.40); ("S24", 0.30);
        ("S25", 0.25); ("S26", 0.05); ("S27", 0.15); ("S28", 0.02); ("S29", 0.15); ("S30", 0.40);
        ("S31", 0.15); ("S32", 0.20); ("S33", 0.45); ("S34", 0.70); ("S35", 0.10); ("S36", 0.50) ]);
    ("Cluster",
      [ ("S1", 0.40); ("S2", 0.95); ("S3", 0.15); ("S4", 0.30); ("S5", 0.95); ("S6", 0.95);
        ("S7", 0.10); ("S8", 0.30); ("S9", 0.05); ("S10", 0.15); ("S11", 0.95); ("S12", 0.90);
        ("S13", 0.85); ("S14", 0.60); ("S15", 0.20); ("S16", 0.10); ("S17", 0.05); ("S18", 0.10);
        ("S19", 0.05); ("S20", 0.05); ("S21", 0.10); ("S22", 0.30); ("S23", 0.40); ("S24", 0.10);
        ("S25", 0.10); ("S26", 0.30); ("S27", 0.10); ("S28", 0.05); ("S29", 0.15); ("S30", 0.10);
        ("S31", 0.20); ("S32", 0.10); ("S33", 0.40); ("S34", 0.20); ("S35", 0.85); ("S36", 0.10) ]);
    ("Sinus",
      [ ("S1", 0.30); ("S2", 0.50); ("S3", 0.10); ("S4", 0.15); ("S5", 0.40); ("S6", 0.30);
        ("S7", 0.50); ("S8", 0.40); ("S9", 0.02); ("S10", 0.10); ("S11", 0.05); ("S12", 0.05);
        ("S13", 0.40); ("S14", 0.02); ("S15", 0.95); ("S16", 0.85); ("S17", 0.10); ("S18", 0.60);
        ("S19", 0.50); ("S20", 0.80); ("S21", 0.15); ("S22", 0.25); ("S23", 0.60); ("S24", 0.20);
        ("S25", 0.15); ("S26", 0.10); ("S27", 0.15); ("S28", 0.02); ("S29", 0.15); ("S30", 0.20);
        ("S31", 0.25); ("S32", 0.10); ("S33", 0.30); ("S34", 0.20); ("S35", 0.10); ("S36", 0.15) ]);
    ("Medication Overuse",
      [ ("S1", 0.50); ("S2", 0.50); ("S3", 0.40); ("S4", 0.50); ("S5", 0.60); ("S6", 0.10);
        ("S7", 0.60); ("S8", 0.40); ("S9", 0.10); ("S10", 0.40); ("S11", 0.05); ("S12", 0.20);
        ("S13", 0.30); ("S14", 0.02); ("S15", 0.20); ("S16", 0.05); ("S17", 0.40); ("S18", 0.50);
        ("S19", 0.40); ("S20", 0.10); ("S21", 0.95); ("S22", 0.90); ("S23", 0.85); ("S24", 0.15);
        ("S25", 0.20); ("S26", 0.10); ("S27", 0.15); ("S28", 0.02); ("S29", 0.15); ("S30", 0.30);
        ("S31", 0.30); ("S32", 0.20); ("S33", 0.90); ("S34", 0.40); ("S35", 0.30); ("S36", 0.60) ]);
    ("Cervicogenic",
      [ ("S1", 0.20); ("S2", 0.80); ("S3", 0.20); ("S4", 0.30); ("S5", 0.50); ("S6", 0.15);
        ("S7", 0.60); ("S8", 0.40); ("S9", 0.05); ("S10", 0.15); ("S11", 0.10); ("S12", 0.10);
        ("S13", 0.75); ("S14", 0.05); ("S15", 0.15); ("S16", 0.05); ("S17", 0.30); ("S18", 0.60);
        ("S19", 0.40); ("S20", 0.10); ("S21", 0.30); ("S22", 0.40); ("S23", 0.60); ("S24", 0.90);
        ("S25", 0.85); ("S26", 0.25); ("S27", 0.40); ("S28", 0.02); ("S29", 0.15); ("S30", 0.70);
        ("S31", 0.35); ("S32", 0.90); ("S33", 0.50); ("S34", 0.90); ("S35", 0.20); ("S36", 0.20) ]);
    ("Trigeminal Neuralgia",
      [ ("S1", 0.05); ("S2", 0.95); ("S3", 0.05); ("S4", 0.10); ("S5", 0.98); ("S6", 0.20);
        ("S7", 0.02); ("S8", 0.10); ("S9", 0.02); ("S10", 0.10); ("S11", 0.05); ("S12", 0.30);
        ("S13", 0.90); ("S14", 0.02); ("S15", 0.10); ("S16", 0.05); ("S17", 0.05); ("S18", 0.05);
        ("S19", 0.10); ("S20", 0.05); ("S21", 0.15); ("S22", 0.40); ("S23", 0.20); ("S24", 0.15);
        ("S25", 0.10); ("S26", 0.98); ("S27", 0.95); ("S28", 0.95); ("S29", 0.15); ("S30", 0.10);
        ("S31", 0.15); ("S32", 0.10); ("S33", 0.30); ("S34", 0.15); ("S35", 0.90); ("S36", 0.10) ]);
    ("Hypertensive",
      [ ("S1", 0.40); ("S2", 0.30); ("S3", 0.30); ("S4", 0.25); ("S5", 0.60); ("S6", 0.15);
        ("S7", 0.40); ("S8", 0.50); ("S9", 0.10); ("S10", 0.25); ("S11", 0.10); ("S12", 0.20);
        ("S13", 0.25); ("S14", 0.02); ("S15", 0.15); ("S16", 0.05); ("S17", 0.30); ("S18", 0.60);
        ("S19", 0.40); ("S20", 0.10); ("S21", 0.20); ("S22", 0.50); ("S23", 0.70); ("S24", 0.20);
        ("S25", 0.20); ("S26", 0.15); ("S27", 0.10); ("S28", 0.02); ("S29", 0.95); ("S30", 0.75);
        ("S31", 0.70); ("S32", 0.30); ("S33", 0.60); ("S34", 0.30); ("S35", 0.25); ("S36", 0.25) ]) ].

(** [float(n)] for a small non-negative int. *)
Definition float_of_nat (n : nat) : float :=
  Nat.iter n (fun x => x + 1) 0.

(** [sum] of floats, from the int 0. *)
Definition py_sum (l : list float) : float := fold_left PrimFloat.add l 0.

Definition py_div (x y : float) : result float :=
  if PrimFloat.eqb y 0 then Raise ZeroDivisionError else Ok (x / y).

Definition bayesian_update (current_P : list float) (symptom_key : string)
    (answer_is_yes : bool) : result (list float) :=
  new_P ← mapM (fun diagnosis =>
             row ← dict_get CPT diagnosis;
             P_S_given_D ← dict_get row symptom_key;
             let P_S_given_D :=
               if negb answer_is_yes then 1.0 - P_S_given_D else P_S_given_D in
             i ← list_index DIAGNOSES diagnosis;
             p ← list_get current_P i;
             let numerator := P_S_given_D * p in
             Ok numerator)
           DIAGNOSES;
  let denominator := py_sum new_P in
  if PrimFloat.eqb denominator 0 then
    Ok (replicate NUM_DIAGNOSES (1.0 / float_of_nat NUM_DIAGNOSES))
  else
    mapM (fun p => py_div p denominator) new_P.

(** [P_yes] as [calculate_information_gain] computes it (lines 119-120). *)
Definition P_yes (current_P : list float) (symptom_key : string) : result float :=
  terms ← mapM (fun '(i, d) =>
             row ← dict_get CPT d;
             c ← dict_get row symptom_key;
             p ← list_get current_P i;
             Ok (c * p))
           (enumerate DIAGNOSES);
  Ok (py_sum terms).

End binary64.

(** ** analysis.py

    The functions are modelled up to their return value; what they print is
    left out. *)

Module analysis.
Import data engine.

Definition compute_mutual_information_all_symptoms
  : result (list (string * string * R)) :=
  let uniform_P := replicate NUM_DIAGNOSES PRIOR_PROBABILITY in
  mi_results ← mapM (fun symptom_key =>
                  mi ← calculate_information_gain uniform_P symptom_key;
                  text ← dict_get SYMPTOMS symptom_key;
                  Ok (symptom_key, text, mi))
                (dict_keys SYMPTOMS);
  Ok (sorted_desc (fun x => snd x) mi_results).

(** [CPT[target_diagnosis][question_key] > 0.5] *)
Definition most_likely_answer (target_diagnosis question_key : string)
  : result bool :=
  row ← dict_get CPT target_diagnosis;
  prob_yes ← dict_get row question_key;
  Ok (if Rlt_dec 0.5 prob_yes then true else false).

(** One row of the path returned by [trace_diagnostic_path]:
    (question_num, question_key, question_text, answer, ig, entropy). *)
Definition path_row : Type :=
  nat * option string * string * option string * option R * R.

(** The loop of [trace_diagnostic_path]; state [(P, asked, path, question_num)]. *)
Definition trace_body (target_diagnosis : string) (answers : gmap string bool)
    (st : list R * gset string * list path_row * nat)
  : result ((list R * gset string * list path_row * nat) + list path_row) :=
  let '(P, asked, path, question_num) := st in
  m ← py_max P;
  if Rlt_dec m 0.90 then
    if bool_decide (size asked < length SYMPTOMS)%nat then
      '(question_text, question_key, ig) ← get_next_question P asked;
      match question_key with
      | None => Ok (inr path)
      | Some question_key =>
        answer ← match answers !! question_key with
                 | Some a => Ok a
                 | None => most_likely_answer target_diagnosis question_key
                 end;
        P ← bayesian_update P question_key answer;
        let asked := {[ question_key ]} ∪ asked in
        entropy_after ← calculate_entropy P;
        text ← dict_get SYMPTOMS question_key;
        let path :=
          path ++ [(question_num, Some question_key, text,
                    Some (if (answer : bool) then "Yes" else "No"), Some ig,
                    entropy_after)] in
        Ok (inl (P, asked, path, S question_num))
      end
    else Ok (inr path)
  else Ok (inr path).

Definition trace_diagnostic_path (fuel : nat) (target_diagnosis : string)
    (answers : gmap string bool) : option (result (list path_row)) :=
  let P := replicate NUM_DIAGNOSES PRIOR_PROBABILITY in
  match calculate_entropy P with
  | Raise e => Some (Raise e)
  | Ok initial_entropy =>
    let path := [(0%nat, None, "Initial state", None, None, initial_entropy)] in
    while fuel (trace_body target_diagnosis answers) (P, ∅, path, 1%nat)
  end.

(** The [for] loop shared by [simulate_random_ordering] (one trial) and
    [simulate_frequency_based_ordering]: ask in the given order until the
    leading probability reaches 0.90. *)
Fixpoint ask_in_order (target_diagnosis : string) (answers : gmap string bool)
    (order : list string) (P : list R) (question_count : nat) : result nat :=
  match order with
  | [] => Ok question_count
  | symptom_key :: rest =>
    m ← py_max P;
    if Rle_dec 0.90 m then Ok question_count
    else
      dflt ← most_likely_answer target_diagnosis symptom_key;
      let answer := default dflt (answers !! symptom_key) in
      P ← bayesian_update P symptom_key answer;
      ask_in_order target_diagnosis answers rest P (S question_count)
  end.

(** [symptom_frequencies] is the dict built in catalog order, one entry per
    symptom; sorting its keys by their value is sorting its entries by value
    and keeping the keys. *)
Definition simulate_frequency_based_ordering (target_diagnosis : string)
    (answers : gmap string bool) : result nat :=
  symptom_frequencies ←
    mapM (fun symptom_key =>
            probs ← mapM (fun d => row ← dict_get CPT d; dict_get row symptom_key)
                      DIAGNOSES;
            avg_prob ← np_mean probs;
            Ok (symptom_key, avg_prob))
         (dict_keys SYMPTOMS);
  let ordered_symptoms := map fst (sorted_desc snd symptom_frequencies) in
  let P := replicate NUM_DIAGNOSES PRIOR_PROBABILITY in
  ask_in_order target_diagnosis answers ordered_symptoms P 0.

(** The loop of [simulate_ig_ordering]; state [(P, asked, question_count)]. *)
Definition ig_body (target_diagnosis : string) (answers : gmap string bool)
    (st : list R * gset string * nat)
  : result ((list R * gset string * nat) + (list R * gset string * nat)) :=
  let '(P, asked, question_count) := st in
  m ← py_max P;
  if Rlt_dec m 0.90 then
    if bool_decide (size asked < length SYMPTOMS)%nat then
      '(question_text, question_key, ig) ← get_next_question P asked;
      match question_key with
      | None => Ok (inr st)
      | Some question_key =>
        dflt ← most_likely_answer target_diagnosis question_key;
        let answer := default dflt (answers !! question_key) in
        P ← bayesian_update P question_key answer;
        let asked := {[ question_key ]} ∪ asked in
        Ok (inl (P, asked, S question_count))
      end
    else Ok (inr st)
  else Ok (inr st).

(** The state in which the loop of [simulate_ig_ordering] stops. *)
Definition ig_loop (fuel : nat) (target_diagnosis : string)
    (answers : gmap string bool)
  : option (result (list R * gset string * nat)) :=
  let P := replicate NUM_DIAGNOSES PRIOR_PROBABILITY in
  while fuel (ig_body target_diagnosis answers) (P, ∅, 0%nat).

Definition simulate_ig_ordering (fuel : nat) (target_diagnosis : string)
    (answers : gmap string bool) : option (result nat) :=
  match ig_loop fuel target_diagnosis answers with
  | None => None
  | Some (Raise e) => Some (Raise e)
  | Some (Ok (P, asked, question_count)) => Some (Ok question_count)
  end.

End analysis.

(** ** streamlit_app.py: the session state and what a click does to it *)

Module streamlit_app.
Import data engine.

(** An entry of [answers_history]: the dict with keys "question", "answer", "key". *)
Record answer_entry : Type := {
  question : string;
  answer : string;
  key : string
}.

(** [st.session_state] *)
Record session : Type := {
  current_P : list R;
  asked_symptoms : gset string;
  entropy_history : list R;
  question_count : nat;
  answers_history : list answer_entry
}.

Definition init_session : session := {|
  current_P := replicate NUM_DIAGNOSES PRIOR_PROBABILITY;
  asked_symptoms := ∅;
  entropy_history := [3.0];
  question_count := 0;
  answers_history := []
|}.

(** The metrics at the top of the page: (max_prob, best_idx, best_diagnosis). *)
Definition leading_diagnosis (s : session) : result (R * nat * string) :=
  max_prob ← py_max (current_P s);
  best_idx ← list_index_R (current_P s) max_prob;
  best_diagnosis ← list_get DIAGNOSES best_idx;
  Ok (max_prob, best_idx, best_diagnosis).

(** The body of the four answer buttons, which differ in the answer only. *)
Definition on_answer (s : session) (question_text question_key : string)
    (answer_is_yes : bool) : result session :=
  new_P ← bayesian_update (current_P s) question_key answer_is_yes;
  H ← calculate_entropy new_P;
  Ok {| current_P := new_P;
        asked_symptoms := {[ question_key ]} ∪ asked_symptoms s;
        entropy_history := entropy_history s ++ [H];
        question_count := S (question_count s);
        answers_history :=
          answers_history s
          ++ [{| question := question_text;
                 answer := if answer_is_yes then "yes" else "no";
                 key := question_key |}] |}.

(** One run of the script in which an answer button, if one is shown, is
    pressed: the metrics, the next question, then the button's body.  With
    no question left no button is shown and the state stays as it is. *)
Definition click (s : session) (answer_is_yes : bool) : result session :=
  _ ← leading_diagnosis s;
  _ ← calculate_entropy (current_P s);
  '(question_text, question_key, ig_value) ←
    get_next_question (current_P s) (asked_symptoms s);
  match question_text, question_key with
  | Some question_text, Some question_key =>
    on_answer s question_text question_key answer_is_yes
  | _, _ => Ok s
  end.

End streamlit_app.

(** * Vocabulary of the properties *)

(** The value of [log2]: the binary logarithm, extended by 0 off (0, +inf). *)
Definition lg (p : R) : R := if Rlt_dec 0 p then ln p / ln 2 else 0.

Definition plogp (p : R) : R := p * lg p.

(** Shannon entropy in bits over the extended logarithm. *)
Definition entropy (P : list R) : R := - py_sum (map plogp P).

(** A posterior: one non-negative entry per diagnosis, summing to 1. *)
Definition is_distribution (P : list R) : Prop :=
  length P = data.NUM_DIAGNOSES /\ Forall (Rle 0) P /\ py_sum P = 1.

Definition uniform : list R :=
  replicate data.NUM_DIAGNOSES data.PRIOR_PROBABILITY.

(** All mass on diagnosis [i]. *)
Definition one_hot (i : nat) : list R :=
  <[ i := 1 ]> (replicate data.NUM_DIAGNOSES 0).

(** The summand of Shannon's formula under the convention 0 log 0 = 0. *)
Definition shannon_term (p : R) : R :=
  if Req_dec_T p 0 then 0 else p * (ln p / ln 2).

(** P(symptom = yes | diagnosis) as a total function (0 off the table). *)
Definition cpt (d s : string) : R :=
  match row ← dict_get data.CPT d; dict_get row s with
  | Ok c => c
  | Raise _ => 0
  end.

(** The symptom catalog, in catalog order. *)
Definition catalog : list string := dict_keys data.SYMPTOMS.

(** L(d): the probability of the answer under diagnosis [d]. *)
Definition likelihood (s : string) (answer_is_yes : bool) (d : string) : R :=
  if answer_is_yes then cpt d s else 1 - cpt d s.

(** The unnormalized posterior L(d) * P(d), in catalog order. *)
Definition unnormalized (P : list R) (s : string) (answer_is_yes : bool)
  : list R :=
  zip_with (fun d p => likelihood s answer_is_yes d * p) data.DIAGNOSES P.

(** P(yes) = sum over d of CPT[d][s] * P(d); P(no) = 1 - P(yes). *)
Definition P_yes (P : list R) (s : string) : R :=
  py_sum (zip_with (fun d p => cpt d s * p) data.DIAGNOSES P).

Definition P_no (P : list R) (s : string) : R := 1 - P_yes P s.

(** The share of one diagnosis in the information gain: with prior mass [p],
    P(yes | d) = [c], P(yes) = [y] and P(no) = [n]. *)
Definition gain_term (y n c p : R) : R :=
  - plogp p + y * plogp (c * p / y) + n * plogp ((1 - c) * p / n).

(** The information gain as a number (0 where the engine raises). *)
Definition gain (P : list R) (k : string) : R :=
  match engine.calculate_information_gain P k with
  | Ok g => g
  | Raise _ => 0
  end.

(** One turn of the selection loop over known gains. *)
Definition pick (G : string -> R) (st : R * option string) (k : string)
  : R * option string :=
  if Rlt_dec (fst st) (G k) then (G k, Some k) else st.

(** Every symptom but S1 has been asked. *)
Definition all_but_S1 : gset string := list_to_set (drop 1 catalog).

(** Every symptom has been asked. *)
Definition all_asked : gset string := list_to_set catalog.

(** The reading of the result as (symptom id, question text, gain). *)
Definition id_then_text (r : option string * option string * R) : Prop :=
  exists k text,
    fst (fst r) = Some k /\ snd (fst r) = Some text
    /\ k ∈ catalog /\ dict_get data.SYMPTOMS k = Ok text.

(** The reading of the result as (question text, symptom id, gain). *)
Definition text_then_id (r : option string * option string * R) : Prop :=
  exists k text,
    fst (fst r) = Some text /\ snd (fst r) = Some k
    /\ k ∈ catalog /\ dict_get data.SYMPTOMS k = Ok text.

(** The malformed all-zero list of the right length. *)
Definition zeros : list R := replicate data.NUM_DIAGNOSES 0.

(** The normalized posterior of the normal branch of [bayesian_update]. *)
Definition posterior (P : list R) (s : string) (answer_is_yes : bool) : list R :=
  map (fun x => x / py_sum (unnormalized P s answer_is_yes))
      (unnormalized P s answer_is_yes).

(** Non-increasing keys along the list. *)
Definition descending {A : Type} (key : A -> R) (l : list A) : Prop :=
  StronglySorted (fun a b => key b <= key a) l.

(** The state of a questioning loop after [n] questions: a posterior, and
    [n] distinct catalog symptoms asked. *)
Definition asking (P : list R) (asked : gset string) (n : nat) : Prop :=
  is_distribution P /\ (forall k, k ∈ asked -> k ∈ catalog) /\ size asked = n.

(** The leading probability has reached the 0.90 threshold. *)
Definition confident (P : list R) : Prop :=
  exists m, py_max P = Ok m /\ 0.90 <= m.

(** The mean over the diagnoses of P(symptom = yes | diagnosis). *)
Definition mean_cpt (k : string) : R :=
  py_sum (map (fun d => cpt d k) data.DIAGNOSES) / INR (length data.DIAGNOSES).

(** The symptom of a row of the diagnostic path. *)
Definition path_key (row : analysis.path_row) : option string :=
  snd (fst (fst (fst (fst row)))).

(** Row [i >= 1] of a diagnostic path: question number [i], a catalog
    symptom with its text, the answer given as "Yes" or "No" (the supplied
    answer where the dict has one), a gain and an entropy within bounds. *)
Definition question_row (answers : gmap string bool) (i : nat)
    (row : analysis.path_row) : Prop :=
  exists (k text : string) (b : bool) (g h : R),
    row = (i, Some k, text, Some (if b then "Yes" else "No"), Some g, h)
    /\ k ∈ catalog
    /\ dict_get data.SYMPTOMS k = Ok text
    /\ (forall b', answers !! k = Some b' -> b' = b)
    /\ 0 <= g
    /\ 0 <= h <= 3.

(** A well-formed diagnostic path: the initial row with entropy 3, then
    question rows numbered from 1, no symptom twice. *)
Definition well_formed_path (answers : gmap string bool)
    (path : list analysis.path_row) : Prop :=
  path !! 0%nat = Some (0%nat, None, "Initial state", None, None, 3)
  /\ (forall i row, path !! S i = Some row -> question_row answers (S i) row)
  /\ NoDup (map path_key path).

(** The invariant of the loop of [trace_diagnostic_path]: after [n]
    questions the path has [n + 1] rows and holds the symptoms asked. *)
Definition trace_inv (answers : gmap string bool)
    (st : list R * gset string * list analysis.path_row * nat) : Prop :=
  let '(P, asked, path, qn) := st in
  exists n, asking P asked n /\ qn = S n /\ length path = qn
            /\ well_formed_path answers path
            /\ (forall row k, row ∈ path -> path_key row = Some k -> k ∈ asked).

(** The answer "yes" to every symptom of the catalog. *)
Definition all_yes : gmap string bool := gset_to_gmap true all_asked.

(** The question text of a symptom (empty off the catalog). *)
Definition text_of (k : string) : string :=
  match dict_get data.SYMPTOMS k with
  | Ok text => text
  | Raise _ => ""
  end.

(** A consistent session: after [question_count] questions the posterior is
    a distribution, the asked-set holds the keys of [answers_history], each
    once, every entry of [answers_history] pairs a catalog symptom with its
    text and "yes" or "no", and [entropy_history] has one more entry than
    there are answers, all between 0 and 3, the last being the entropy of
    the posterior. *)
Definition session_ok (s : streamlit_app.session) : Prop :=
  asking (streamlit_app.current_P s) (streamlit_app.asked_symptoms s)
         (streamlit_app.question_count s)
  /\ length (streamlit_app.answers_history s) = streamlit_app.question_count s
  /\ length (streamlit_app.entropy_history s)
     = S (streamlit_app.question_count s)
  /\ last (streamlit_app.entropy_history s)
     = Some (entropy (streamlit_app.current_P s))
  /\ Forall (fun h => 0 <= h <= 3) (streamlit_app.entropy_history s)
  /\ NoDup (map streamlit_app.key (streamlit_app.answers_history s))
  /\ (forall k, k ∈ streamlit_app.asked_symptoms s
                <-> k ∈ map streamlit_app.key (streamlit_app.answers_history s))
  /\ Forall (fun e =>
               dict_get data.SYMPTOMS (streamlit_app.key e)
               = Ok (streamlit_app.question e)
               /\ (streamlit_app.answer e = "yes" \/ streamlit_app.answer e = "no"))
            (streamlit_app.answers_history s).

(** The posterior after the symptoms [ks] have been asked in order, each
    answered from [answers] or, failing that, by the likelier answer for
    [target]. *)
Fixpoint replay (target : string) (answers : gmap string bool)
    (ks : list string) (P : list R) : result (list R) :=
  match ks with
  | [] => Ok P
  | k :: ks' =>
    dflt ← analysis.most_likely_answer target k;
    P' ← engine.bayesian_update P k (default dflt (answers !! k));
    replay target answers ks' P'
  end.

(** A distribution whose entries are doubles: 1/4 on Migraine, 3/4 on
    Tension-Type. *)
Definition P_quarter : list float :=
  [0.25; 0.75; 0; 0; 0; 0; 0; 0]%float.

(** The mixture of the two posteriors with the weights P(yes) and
    1 - P(yes), in double precision. *)
Definition mixture64 (y : float) (Y N : list float) : list float :=
  zip_with (fun a b => (y * a + (1 - y) * b)%float) Y N.

(** * Properties *)

(** ** Sums and monadic maps *)

Section Sums.

Lemma fold_Rplus_shift (l : list R) (a : R) :
  fold_left Rplus l a = a + fold_left Rplus l 0.
Proof.
  revert a; induction l as [|x l IH]; intros a; simpl.
  - lra.
  - rewrite (IH (a + x)), (IH (0 + x)). lra.
Qed.

Lemma py_sum_nil : py_sum [] = 0.
Proof. reflexivity. Qed.

Lemma py_sum_cons (x : R) (l : list R) : py_sum (x :: l) = x + py_sum l.
Proof.
  unfold py_sum; simpl. rewrite fold_Rplus_shift. lra.
Qed.

Lemma py_sum_scale (k : R) (l : list R) :
  py_sum (map (Rmult k) l) = k * py_sum l.
Proof.
  induction l as [|x l IH]; simpl.
  - rewrite py_sum_nil. lra.
  - rewrite !py_sum_cons, IH. lra.
Qed.

Lemma py_sum_nonneg (l : list R) : Forall (Rle 0) l -> 0 <= py_sum l.
Proof.
  induction 1 as [|x l Hx _ IH].
  - rewrite py_sum_nil. lra.
  - rewrite py_sum_cons. lra.
Qed.

Lemma py_sum_replicate (n : nat) (x : R) :
  py_sum (replicate n x) = INR n * x.
Proof.
  induction n as [|n IH].
  - simpl. rewrite py_sum_nil. lra.
  - rewrite S_INR. simpl replicate. rewrite py_sum_cons, IH. lra.
Qed.

End Sums.

Section Monad.

Context {A B : Type}.

Lemma bind_Ok (x : A) (k : A -> result B) : (Ok x ≫= k) = k x.
Proof. reflexivity. Qed.

Lemma mapM_Ok (f : A -> result B) (g : A -> B) (l : list A) :
  (forall x, x ∈ l -> f x = Ok (g x)) -> mapM f l = Ok (map g l).
Proof.
  induction l as [|x l IH]; intros Hf.
  - reflexivity.
  - simpl. rewrite (Hf x) by left. simpl.
    rewrite IH by (intros y Hy; apply Hf; now right). reflexivity.
Qed.

End Monad.

(** ** The primitives on concrete inputs *)

Example list_index_Cluster : list_index data.DIAGNOSES "Cluster" = Ok 2%nat.
Proof. reflexivity. Qed.

Example list_index_absent : list_index data.DIAGNOSES "Flu" = Raise ValueError.
Proof. reflexivity. Qed.

Example CPT_Migraine_S1 :
  (row ← dict_get data.CPT "Migraine"; dict_get row "S1") = Ok 0.90.
Proof. reflexivity. Qed.

Example SYMPTOMS_S36 :
  dict_get data.SYMPTOMS "S36"
  = Ok "Have you recently stopped or significantly reduced your caffeine intake?".
Proof. reflexivity. Qed.

Example py_div_by_zero : py_div 1 0 = Raise ZeroDivisionError.
Proof. unfold py_div. destruct (Req_dec_T 0 0); [reflexivity | contradiction]. Qed.

Example np_log2_at_zero : np_log2 0 = Raise FloatingPointError.
Proof. unfold np_log2. destruct (Rlt_dec 0 0); [lra | reflexivity]. Qed.

(** An unknown symptom fails at the first CPT lookup. *)
Example bayesian_update_unknown_symptom :
  engine.bayesian_update uniform "S99" true = Raise KeyError.
Proof. reflexivity. Qed.

(** A list shorter than the diagnosis catalog fails at the first missing index. *)
Example bayesian_update_short_list :
  engine.bayesian_update [1; 0] "S1" false = Raise IndexError.
Proof. reflexivity. Qed.

(** ** Entropy *)

Section Entropy.
Import engine.

Lemma ln2_pos : 0 < ln 2.
Proof. pose proof ln_lt_2. lra. Qed.

Lemma log2_Ok (p : R) : log2 p = Ok (lg p).
Proof.
  unfold log2, np_log2, lg. destruct (Rlt_dec 0 p); reflexivity.
Qed.

Lemma mapM_log2 (P : list R) : mapM log2 P = Ok (map lg P).
Proof. apply mapM_Ok. intros p _. apply log2_Ok. Qed.

Lemma zip_with_Rmult_lg (P : list R) :
  zip_with Rmult P (map lg P) = map plogp P.
Proof. induction P as [|p P IH]; simpl; [|rewrite IH]; reflexivity. Qed.

Lemma calculate_entropy_Ok (P : list R) : calculate_entropy P = Ok (entropy P).
Proof.
  unfold calculate_entropy. rewrite mapM_log2. simpl.
  rewrite zip_with_Rmult_lg. reflexivity.
Qed.

Lemma plogp_nonpos (p : R) : p <= 0 -> plogp p = 0.
Proof.
  intros Hp. unfold plogp, lg. destruct (Rlt_dec 0 p); lra.
Qed.

Lemma plogp_1 : plogp 1 = 0.
Proof.
  unfold plogp, lg. destruct (Rlt_dec 0 1); [|lra].
  rewrite ln_1. unfold Rdiv. lra.
Qed.

Lemma plogp_shannon (p : R) : 0 <= p -> plogp p = shannon_term p.
Proof.
  intros Hp. unfold plogp, lg, shannon_term.
  destruct (Req_dec_T p 0), (Rlt_dec 0 p); lra.
Qed.

Lemma lg_eighth : lg (1 / 8) = -3.
Proof.
  unfold lg. destruct (Rlt_dec 0 (1 / 8)) as [_|n]; [|lra].
  replace (1 / 8) with (/ 2 ^ 3) by (simpl; lra).
  rewrite ln_Rinv by (simpl; lra).
  rewrite ln_pow by lra. simpl INR.
  pose proof ln2_pos. field. lra.
Qed.

Lemma py_sum_app (l1 l2 : list R) : py_sum (l1 ++ l2) = py_sum l1 + py_sum l2.
Proof.
  induction l1 as [|x l1 IH]; simpl.
  - rewrite py_sum_nil. lra.
  - rewrite !py_sum_cons, IH. lra.
Qed.

Lemma entropy_uniform : entropy uniform = 3.
Proof.
  unfold entropy, uniform, data.PRIOR_PROBABILITY.
  change data.NUM_DIAGNOSES with 8%nat. simpl INR.
  replace (1.0 / (1 + 1 + 1 + 1 + 1 + 1 + 1 + 1)) with (1 / 8) by lra.
  simpl. rewrite !py_sum_cons, py_sum_nil.
  unfold plogp. rewrite lg_eighth. lra.
Qed.

Lemma entropy_one_hot (i : nat) : (i < 8)%nat -> entropy (one_hot i) = 0.
Proof.
  intros Hi. unfold entropy, one_hot.
  do 8 (destruct i as [|i]; [simpl; rewrite !py_sum_cons, py_sum_nil,
    plogp_1, (plogp_nonpos 0) by lra; lra|]).
  lia.
Qed.

End Entropy.

(** C10: [calculate_entropy] raises on no list of reals whatever: negative
    entries and sums other than 1 are accepted.  The result is the negated
    sum of [p * log2 p] over the positive entries only, an entry [p <= 0]
    having its log term set to 0 by [log2] and so adding exactly 0: dropping
    such an entry from the list leaves the result unchanged. *)
Theorem calculate_entropy_total :
  forall P : list R,
    engine.calculate_entropy P
      = Ok (- py_sum (map (fun p => if Rlt_dec 0 p then p * (ln p / ln 2) else 0) P))
    /\ (forall p, In p P -> p <= 0 -> engine.log2 p = Ok 0)
    /\ (forall l1 p l2, P = l1 ++ p :: l2 -> p <= 0 ->
          engine.calculate_entropy P = engine.calculate_entropy (l1 ++ l2)).
Proof.
  intros P. split; [|split].
  - rewrite calculate_entropy_Ok. unfold entropy. do 3 f_equal.
    apply map_ext. intros p. unfold plogp, lg.
    destruct (Rlt_dec 0 p); lra.
  - intros p _ Hp. rewrite log2_Ok. unfold lg.
    destruct (Rlt_dec 0 p); [lra | reflexivity].
  - intros l1 p l2 -> Hp. rewrite !calculate_entropy_Ok. unfold entropy.
    rewrite !map_app, !py_sum_app. simpl map.
    rewrite py_sum_cons, (plogp_nonpos p Hp). do 2 f_equal. lra.
Qed.

(** C3: on a distribution [calculate_entropy] returns Shannon's
    -sum p_i log2 p_i, a zero entry adding exactly 0; it returns 0 on every
    one-hot distribution and 3 on the uniform distribution over the 8
    diagnoses. *)
Theorem calculate_entropy_shannon :
  forall P : list R,
    is_distribution P ->
    engine.calculate_entropy P = Ok (- py_sum (map shannon_term P))
    /\ (forall i, P = one_hot i -> engine.calculate_entropy P = Ok 0)
    /\ (P = uniform -> engine.calculate_entropy P = Ok 3).
Proof.
  intros P (Hlen & Hpos & Hsum). split; [|split].
  - rewrite calculate_entropy_Ok. unfold entropy. do 3 f_equal.
    apply map_ext_Forall. eapply Forall_impl; [exact Hpos|].
    intros p Hp. apply plogp_shannon, Hp.
  - intros i ->. rewrite calculate_entropy_Ok. f_equal.
    apply entropy_one_hot.
    destruct (Nat.lt_ge_cases i 8) as [Hi|Hi]; [exact Hi|exfalso].
    unfold one_hot in Hsum. rewrite list_insert_ge in Hsum
      by (rewrite length_replicate; exact Hi).
    rewrite py_sum_replicate in Hsum. lra.
  - intros ->. rewrite calculate_entropy_Ok. f_equal. apply entropy_uniform.
Qed.

(** ** The knowledge base *)

Section KnowledgeBase.
Import data.

Ltac each_member H :=
  repeat (apply elem_of_cons in H as [-> | H]); [.. | apply elem_of_nil in H; contradiction].

Lemma cpt_lookup (d s : string) :
  d ∈ DIAGNOSES -> s ∈ catalog ->
  exists row, dict_get CPT d = Ok row /\ dict_get row s = Ok (cpt d s)
              /\ 0 < cpt d s < 1.
Proof.
  intros Hd Hs. unfold catalog in Hs. cbn in Hd, Hs.
  each_member Hd; (eexists; split; [reflexivity|]);
    each_member Hs; (split; [reflexivity | unfold cpt; simpl; lra]).
Qed.

End KnowledgeBase.

(** ** Bayesian update *)

Section Indexed.

Context {A B C : Type}.

Lemma mapM_indexed (f : A -> result C) (g : A -> B -> C)
    (l : list A) (P : list B) :
  length l = length P ->
  (forall i x p, l !! i = Some x -> P !! i = Some p -> f x = Ok (g x p)) ->
  mapM f l = Ok (zip_with g l P).
Proof.
  revert P; induction l as [|x l IH]; intros [|p P] Hlen Hf;
    simpl in Hlen; try discriminate; [reflexivity|].
  simpl. rewrite (Hf 0%nat x p eq_refl eq_refl). simpl.
  rewrite (IH P); [reflexivity | lia |].
  intros i y q Hy Hq. exact (Hf (S i) y q Hy Hq).
Qed.

Lemma mapM_enumerate_from (f : nat * A -> result C) (g : A -> B -> C)
    (l : list A) (P : list B) (k : nat) :
  length l = length P ->
  (forall i x p, l !! i = Some x -> P !! i = Some p ->
                 f ((k + i)%nat, x) = Ok (g x p)) ->
  mapM f (imap (fun i x => ((k + i)%nat, x)) l) = Ok (zip_with g l P).
Proof.
  revert P k; induction l as [|x l IH]; intros [|p P] k Hlen Hf;
    simpl in Hlen; try discriminate; [reflexivity|].
  simpl. rewrite (Hf 0%nat x p eq_refl eq_refl). simpl.
  rewrite (imap_ext _ (fun i x => ((S k + i)%nat, x)))
    by (intros i y _; simpl; f_equal; lia).
  rewrite (IH P (S k)); [reflexivity | lia |].
  intros i y q Hy Hq. rewrite <- (Hf (S i) y q Hy Hq). f_equal. f_equal. lia.
Qed.

Lemma mapM_enumerate (f : nat * A -> result C) (g : A -> B -> C)
    (l : list A) (P : list B) :
  length l = length P ->
  (forall i x p, l !! i = Some x -> P !! i = Some p -> f (i, x) = Ok (g x p)) ->
  mapM f (enumerate l) = Ok (zip_with g l P).
Proof.
  intros Hlen Hf. apply (mapM_enumerate_from f g l P 0 Hlen Hf).
Qed.

End Indexed.

Section Bayes.
Import data engine.

Lemma list_index_DIAGNOSES (i : nat) (d : string) :
  DIAGNOSES !! i = Some d -> list_index DIAGNOSES d = Ok i.
Proof.
  intros H.
  do 8 (destruct i as [|i]; [injection H as <-; reflexivity|]).
  discriminate.
Qed.

Lemma list_get_Ok {T : Type} (l : list T) (i : nat) (x : T) :
  l !! i = Some x -> list_get l i = Ok x.
Proof. unfold list_get. intros ->. reflexivity. Qed.

Lemma new_P_Ok (P : list R) (s : string) (a : bool) :
  length P = NUM_DIAGNOSES -> s ∈ catalog ->
  mapM (fun diagnosis =>
          row ← dict_get CPT diagnosis;
          P_S_given_D ← dict_get row s;
          let P_S_given_D := if negb a then 1.0 - P_S_given_D else P_S_given_D in
          i ← list_index DIAGNOSES diagnosis;
          p ← list_get P i;
          let numerator := P_S_given_D * p in
          Ok numerator) DIAGNOSES
  = Ok (unnormalized P s a).
Proof.
  intros Hlen Hs. apply mapM_indexed; [symmetry; exact Hlen|].
  intros i d p Hd Hp.
  destruct (cpt_lookup d s) as (row & Hrow & Hc & _);
    [eapply list_elem_of_lookup_2; exact Hd | exact Hs |].
  rewrite Hrow, bind_Ok, Hc, bind_Ok.
  rewrite (list_index_DIAGNOSES i d Hd), bind_Ok.
  rewrite (list_get_Ok P i p Hp), bind_Ok.
  unfold likelihood. destruct a; simpl negb; cbv iota; do 2 f_equal; lra.
Qed.

Lemma mapM_py_div (l : list R) (z : R) :
  z <> 0 -> mapM (fun p => py_div p z) l = Ok (map (fun p => p / z) l).
Proof.
  intros Hz. apply mapM_Ok. intros p _. unfold py_div.
  destruct (Req_dec_T z 0); [contradiction | reflexivity].
Qed.

(** Both branches of [bayesian_update], on any list of the right length. *)
Lemma bayesian_update_normal (P : list R) (s : string) (a : bool) :
  length P = NUM_DIAGNOSES -> s ∈ catalog ->
  py_sum (unnormalized P s a) <> 0 ->
  bayesian_update P s a
  = Ok (map (fun x => x / py_sum (unnormalized P s a)) (unnormalized P s a)).
Proof.
  intros Hlen Hs Hz. unfold bayesian_update.
  pose proof (new_P_Ok P s a Hlen Hs) as HnewP. cbv zeta in HnewP.
  rewrite HnewP, bind_Ok.
  destruct (Req_dec_T _ 0); [contradiction|].
  apply mapM_py_div, Hz.
Qed.

Lemma bayesian_update_fallback (P : list R) (s : string) (a : bool) :
  length P = NUM_DIAGNOSES -> s ∈ catalog ->
  py_sum (unnormalized P s a) = 0 ->
  bayesian_update P s a = Ok uniform.
Proof.
  intros Hlen Hs Hz. unfold bayesian_update.
  pose proof (new_P_Ok P s a Hlen Hs) as HnewP. cbv zeta in HnewP.
  rewrite HnewP, bind_Ok.
  destruct (Req_dec_T _ 0); [reflexivity | contradiction].
Qed.

End Bayes.

(** ** Weighted sums over the diagnoses *)

Section Weighted.

Variable w : string -> R.

Lemma weighted_nonneg (l : list string) (P : list R) :
  (forall d, d ∈ l -> 0 < w d) -> Forall (Rle 0) P ->
  Forall (Rle 0) (zip_with (fun d p => w d * p) l P).
Proof.
  intros Hw HP. revert l Hw. induction HP as [|p P Hp _ IH]; intros [|d l] Hw;
    simpl; try constructor.
  - pose proof (Hw d ltac:(left)). nra.
  - apply IH. intros d' Hd'. apply Hw. now right.
Qed.

Lemma weighted_pos (l : list string) (P : list R) :
  (forall d, d ∈ l -> 0 < w d) -> Forall (Rle 0) P ->
  length l = length P -> 0 < py_sum P ->
  0 < py_sum (zip_with (fun d p => w d * p) l P).
Proof.
  intros Hw HP. revert l Hw. induction HP as [|p P Hp HP IH]; intros [|d l] Hw Hlen;
    simpl in Hlen; try discriminate.
  - rewrite py_sum_nil. lra.
  - simpl. rewrite !py_sum_cons. intros Hsum.
    pose proof (Hw d ltac:(left)) as Hd.
    assert (Hl : forall d', d' ∈ l -> 0 < w d') by (intros d' Hd'; apply Hw; now right).
    pose proof (py_sum_nonneg _ (weighted_nonneg l P Hl HP)) as Hrest.
    destruct (Rle_lt_or_eq_dec 0 p Hp) as [Hpos | <-].
    + nra.
    + assert (0 < py_sum P) by lra.
      specialize (IH l Hl ltac:(lia) H). lra.
Qed.

Lemma weighted_complement (l : list string) (P : list R) :
  length l = length P ->
  py_sum (zip_with (fun d p => (1 - w d) * p) l P)
  = py_sum P - py_sum (zip_with (fun d p => w d * p) l P).
Proof.
  revert P; induction l as [|d l IH]; intros [|p P] Hlen;
    simpl in Hlen; try discriminate; simpl.
  - rewrite py_sum_nil. lra.
  - rewrite !py_sum_cons, IH by lia. lra.
Qed.

Lemma weighted_mixture (l : list string) (P : list R) (zy zn : R) :
  zy <> 0 -> zn <> 0 -> length l = length P ->
  zip_with (fun y n => zy * y + zn * n)
    (map (fun x => x / zy) (zip_with (fun d p => w d * p) l P))
    (map (fun x => x / zn) (zip_with (fun d p => (1 - w d) * p) l P))
  = P.
Proof.
  intros Hy Hn. revert P; induction l as [|d l IH]; intros [|p P] Hlen;
    simpl in Hlen; try discriminate; simpl; [reflexivity|].
  rewrite IH by lia. f_equal. field. split; assumption.
Qed.

End Weighted.

Lemma map_after_zip_with {A B C D : Type} (h : C -> D) (g : A -> B -> C)
    (l : list A) (k : list B) :
  map h (zip_with g l k) = zip_with (fun x y => h (g x y)) l k.
Proof.
  revert k; induction l as [|x l IH]; intros [|y k]; simpl;
    [reflexivity .. | rewrite IH; reflexivity].
Qed.

Lemma py_sum_div (l : list R) (z : R) :
  py_sum (map (fun x => x / z) l) = py_sum l / z.
Proof.
  induction l as [|x l IH]; simpl.
  - rewrite py_sum_nil. unfold Rdiv. lra.
  - rewrite !py_sum_cons, IH. unfold Rdiv. lra.
Qed.

Section Posterior.
Import data engine.

Lemma likelihood_range (s : string) (a : bool) (d : string) :
  s ∈ catalog -> d ∈ DIAGNOSES -> 0 < likelihood s a d < 1.
Proof.
  intros Hs Hd. destruct (cpt_lookup d s Hd Hs) as (_ & _ & _ & Hc).
  unfold likelihood. destruct a; lra.
Qed.

Lemma unnormalized_length (P : list R) (s : string) (a : bool) :
  length P = NUM_DIAGNOSES -> length (unnormalized P s a) = NUM_DIAGNOSES.
Proof.
  intros Hlen. unfold unnormalized. rewrite length_zip_with, Hlen.
  reflexivity.
Qed.

Lemma unnormalized_nonneg (P : list R) (s : string) (a : bool) :
  s ∈ catalog -> Forall (Rle 0) P -> Forall (Rle 0) (unnormalized P s a).
Proof.
  intros Hs HP. apply (weighted_nonneg (likelihood s a)); [|exact HP].
  intros d Hd. apply (likelihood_range s a d Hs Hd).
Qed.

Lemma unnormalized_pos (P : list R) (s : string) (a : bool) :
  s ∈ catalog -> is_distribution P -> 0 < py_sum (unnormalized P s a).
Proof.
  intros Hs (Hlen & HP & Hsum).
  apply (weighted_pos (likelihood s a)); [|exact HP|symmetry; exact Hlen|lra].
  intros d Hd. apply (likelihood_range s a d Hs Hd).
Qed.

Lemma unnormalized_yes (P : list R) (s : string) :
  py_sum (unnormalized P s true) = P_yes P s.
Proof. reflexivity. Qed.

Lemma unnormalized_no (P : list R) (s : string) :
  is_distribution P -> py_sum (unnormalized P s false) = P_no P s.
Proof.
  intros (Hlen & _ & Hsum). unfold unnormalized, P_no, P_yes, likelihood.
  rewrite (weighted_complement (fun d => cpt d s)) by (symmetry; exact Hlen).
  lra.
Qed.

Lemma uniform_distribution : is_distribution uniform.
Proof.
  unfold is_distribution, uniform, PRIOR_PROBABILITY. split; [|split].
  - apply length_replicate.
  - apply Forall_replicate. change NUM_DIAGNOSES with 8%nat. simpl. lra.
  - rewrite py_sum_replicate. change NUM_DIAGNOSES with 8%nat. simpl. lra.
Qed.

End Posterior.

(** C1: on a distribution [P], a catalog symptom and either answer,
    [bayesian_update] returns the list whose entry for diagnosis [d] is
    L(d) * P(d) divided by the sum of all L(d') * P(d'), provided the sum is
    not zero, with L(d) = CPT[d][symptom] for yes and 1 - CPT[d][symptom]
    for no, every CPT entry read being present in the table. *)
Theorem bayesian_update_bayes_rule :
  forall (P : list R) (s : string) (answer_is_yes : bool),
    is_distribution P ->
    s ∈ catalog ->
    py_sum (unnormalized P s answer_is_yes) <> 0 ->
    engine.bayesian_update P s answer_is_yes
      = Ok (zip_with
              (fun d p => likelihood s answer_is_yes d * p
                          / py_sum (unnormalized P s answer_is_yes))
              data.DIAGNOSES P)
    /\ (forall d, d ∈ data.DIAGNOSES ->
          exists row, dict_get data.CPT d = Ok row
                      /\ dict_get row s = Ok (cpt d s)).
Proof.
  intros P s a (Hlen & _ & _) Hs Hz. split.
  - rewrite (bayesian_update_normal P s a Hlen Hs Hz). f_equal.
    unfold unnormalized at 2. apply map_after_zip_with.
  - intros d Hd. destruct (cpt_lookup d s Hd Hs) as (row & Hrow & Hc & _).
    exists row. split; assumption.
Qed.

(** C5, as amended: in exact real arithmetic, every float operation read
    as the exact operation, mixing the two posteriors back with the weights
    P(yes) and P(no) = 1 - P(yes) gives the prior back, entry by entry. *)
Theorem bayesian_update_total_probability :
  forall (P : list R) (s : string),
    is_distribution P ->
    s ∈ catalog ->
    exists Y N : list R,
      engine.bayesian_update P s true = Ok Y
      /\ engine.bayesian_update P s false = Ok N
      /\ zip_with (fun y n => P_yes P s * y + P_no P s * n) Y N = P.
Proof.
  intros P s HP Hs.
  pose proof (unnormalized_pos P s true Hs HP) as Hy.
  pose proof (unnormalized_pos P s false Hs HP) as Hn.
  pose proof (unnormalized_no P s HP) as HPno.
  destruct HP as (Hlen & Hpos & Hsum).
  eexists; eexists. split; [|split].
  - apply (bayesian_update_normal P s true Hlen Hs). lra.
  - apply (bayesian_update_normal P s false Hlen Hs). lra.
  - rewrite unnormalized_yes, HPno.
    rewrite unnormalized_yes in Hy. rewrite HPno in Hn.
    apply (weighted_mixture (fun d => cpt d s)); [lra | lra | symmetry; exact Hlen].
Qed.

(** C5, as first stated, fails on the code: in double precision the round
    trip is not exact.  On the distribution 1/4, 3/4, 0, ..., 0, whose
    entries are doubles summing to exactly 1, and symptom S2, both updates
    return, P(yes) is computed, and the mixture differs from the prior (its
    first entry is 0.24999999999999997, not 0.25). *)
Lemma bayesian_update_mixture_rounds :
  binary64.py_sum P_quarter = 1%float
  /\ forallb (PrimFloat.leb 0) P_quarter = true
  /\ exists (Y N : list float) (y : float),
       binary64.bayesian_update P_quarter "S2" true = Ok Y
       /\ binary64.bayesian_update P_quarter "S2" false = Ok N
       /\ binary64.P_yes P_quarter "S2" = Ok y
       /\ mixture64 y Y N <> P_quarter
       /\ hd 0%float (mixture64 y Y N) = 0x1.fffffffffffffp-3%float.
Proof.
  split; [vm_compute; reflexivity|]. split; [vm_compute; reflexivity|].
  eexists; eexists; eexists.
  split; [vm_compute; reflexivity|]. split; [vm_compute; reflexivity|].
  split; [vm_compute; reflexivity|]. split.
  - intros E.
    apply (f_equal (fun l => PrimFloat.eqb (hd 0%float l) 0.25)) in E.
    vm_compute in E. discriminate.
  - vm_compute. reflexivity.
Qed.

(** C6: whenever the unnormalized posterior of an 8-entry input sums to
    exactly zero, [bayesian_update] performs no division: it returns the
    uniform distribution, every entry 1/8. *)
Theorem bayesian_update_zero_denominator :
  forall (P : list R) (s : string) (answer_is_yes : bool),
    length P = data.NUM_DIAGNOSES ->
    s ∈ catalog ->
    py_sum (unnormalized P s answer_is_yes) = 0 ->
    engine.bayesian_update P s answer_is_yes = Ok (replicate 8 (1 / 8)).
Proof.
  intros P s a Hlen Hs Hz.
  rewrite (bayesian_update_fallback P s a Hlen Hs Hz). f_equal.
  unfold uniform, data.PRIOR_PROBABILITY.
  change data.NUM_DIAGNOSES with 8%nat. f_equal. simpl. lra.
Qed.

(** C8: [bayesian_update] returns a distribution (8 entries, none
    negative, summing to 1) in both branches.  Only the length and the signs
    of the input are used, not its sum: inputs summing to 1 always take the
    normal branch, and the fallback branch is reached from non-negative
    inputs such as the all-zero list. *)
Theorem bayesian_update_distribution :
  forall (P : list R) (s : string) (answer_is_yes : bool),
    length P = data.NUM_DIAGNOSES ->
    Forall (Rle 0) P ->
    s ∈ catalog ->
    exists Q : list R,
      engine.bayesian_update P s answer_is_yes = Ok Q
      /\ is_distribution Q
      /\ (py_sum (unnormalized P s answer_is_yes) = 0 -> Q = uniform)
      /\ (py_sum P = 1 -> py_sum (unnormalized P s answer_is_yes) <> 0).
Proof.
  intros P s a Hlen Hpos Hs.
  pose proof (unnormalized_nonneg P s a Hs Hpos) as HU.
  pose proof (py_sum_nonneg _ HU) as Hge.
  destruct (Req_dec_T (py_sum (unnormalized P s a)) 0) as [Hz | Hz].
  - exists uniform. split; [|split; [|split]].
    + apply (bayesian_update_fallback P s a Hlen Hs Hz).
    + apply uniform_distribution.
    + reflexivity.
    + intros Hsum. pose proof (unnormalized_pos P s a Hs (conj Hlen (conj Hpos Hsum))).
      lra.
  - eexists. split; [|split; [|split]].
    + apply (bayesian_update_normal P s a Hlen Hs Hz).
    + split; [|split].
      * rewrite length_map. apply unnormalized_length, Hlen.
      * apply Forall_map. eapply Forall_impl; [exact HU|].
        intros x Hx. simpl. apply Rmult_le_pos; [exact Hx|].
        apply Rlt_le, Rinv_0_lt_compat. lra.
      * rewrite py_sum_div. field. exact Hz.
    + intros Hc. contradiction.
    + intros _. exact Hz.
Qed.

(** ** Information gain *)

Section Gain.

Lemma ln_le_pred (x : R) : 0 < x -> ln x <= x - 1.
Proof.
  intros Hx. pose proof (exp_ineq1_le (ln x)) as H.
  rewrite exp_ln in H by exact Hx. lra.
Qed.

Lemma ln_quot (a b : R) : 0 < a -> 0 < b -> ln (a / b) = ln a - ln b.
Proof.
  intros Ha Hb. unfold Rdiv.
  rewrite ln_mult by (try apply Rinv_0_lt_compat; assumption).
  rewrite ln_Rinv by assumption. lra.
Qed.

(** Gibbs' inequality for two points: c ln(y/c) <= y - c. *)
Lemma gibbs_point (c y : R) : 0 < c -> 0 < y -> c * (ln y - ln c) <= y - c.
Proof.
  intros Hc Hy. rewrite <- ln_quot by assumption.
  assert (Hq : 0 < y / c) by (apply Rdiv_lt_0_compat; assumption).
  pose proof (ln_le_pred (y / c) Hq) as H.
  apply (Rmult_le_compat_l c) in H; [|lra].
  replace (c * (y / c - 1)) with (y - c) in H by (field; lra). exact H.
Qed.

Lemma plogp_pos (p : R) : 0 < p -> plogp p = p * (ln p / ln 2).
Proof.
  intros Hp. unfold plogp, lg. destruct (Rlt_dec 0 p); [reflexivity | lra].
Qed.

Lemma gain_term_nonneg (y n c p : R) :
  0 < y -> 0 < n -> y + n = 1 -> 0 < c < 1 -> 0 <= p ->
  0 <= gain_term y n c p.
Proof.
  intros Hy Hn Hyn [Hc0 Hc1] Hp. unfold gain_term.
  destruct (Rle_lt_or_eq_dec 0 p Hp) as [Hpos | <-].
  - assert (Hcp : 0 < c * p / y)
      by (apply Rdiv_lt_0_compat; [apply Rmult_lt_0_compat|]; lra).
    assert (Hdp : 0 < (1 - c) * p / n)
      by (apply Rdiv_lt_0_compat; [apply Rmult_lt_0_compat|]; lra).
    rewrite (plogp_pos p Hpos), (plogp_pos _ Hcp), (plogp_pos _ Hdp).
    rewrite (ln_quot (c * p) y), (ln_quot ((1 - c) * p) n)
      by (try apply Rmult_lt_0_compat; lra).
    rewrite !ln_mult by lra.
    pose proof ln2_pos as H2.
    pose proof (gibbs_point c y Hc0 Hy) as G1.
    pose proof (gibbs_point (1 - c) n ltac:(lra) Hn) as G2.
    replace (- (p * (ln p / ln 2))
             + y * (c * p / y * ((ln c + ln p - ln y) / ln 2))
             + n * ((1 - c) * p / n * ((ln (1 - c) + ln p - ln n) / ln 2)))
      with (p / ln 2 * (- (c * (ln y - ln c)) - (1 - c) * (ln n - ln (1 - c))))
      by (field; lra).
    apply Rmult_le_pos; [|lra].
    apply Rlt_le, Rdiv_lt_0_compat; assumption.
  - replace (c * 0 / y) with 0 by (field; lra).
    replace ((1 - c) * 0 / n) with 0 by (field; lra).
    rewrite (plogp_nonpos 0) by lra. lra.
Qed.

Variable w : string -> R.

Lemma entropy_cons (x : R) (l : list R) : entropy (x :: l) = - plogp x + entropy l.
Proof. unfold entropy. simpl. rewrite py_sum_cons. lra. Qed.

Lemma gain_decompose (y n : R) (l : list string) (P : list R) :
  length l = length P ->
  entropy P
  - (y * entropy (map (fun x => x / y) (zip_with (fun d p => w d * p) l P))
     + n * entropy (map (fun x => x / n) (zip_with (fun d p => (1 - w d) * p) l P)))
  = py_sum (zip_with (fun d p => gain_term y n (w d) p) l P).
Proof.
  revert P; induction l as [|d l IH]; intros [|p P] Hlen;
    simpl in Hlen; try discriminate; simpl.
  - unfold entropy. simpl. rewrite py_sum_nil. lra.
  - rewrite !entropy_cons, py_sum_cons, <- IH by lia.
    unfold gain_term. lra.
Qed.

Lemma gain_terms_nonneg (y n : R) (l : list string) (P : list R) :
  0 < y -> 0 < n -> y + n = 1 ->
  (forall d, d ∈ l -> 0 < w d < 1) -> Forall (Rle 0) P ->
  Forall (Rle 0) (zip_with (fun d p => gain_term y n (w d) p) l P).
Proof.
  intros Hy Hn Hyn Hw HP. revert l Hw.
  induction HP as [|p P Hp _ IH]; intros [|d l] Hw; simpl; try constructor.
  - apply gain_term_nonneg; try assumption. apply Hw. left.
  - apply IH. intros d' Hd'. apply Hw. now right.
Qed.

End Gain.

Section InformationGain.
Import data engine.

Lemma P_yes_terms (P : list R) (s : string) :
  length P = NUM_DIAGNOSES -> s ∈ catalog ->
  mapM (fun '(i, d) =>
          row ← dict_get CPT d;
          c ← dict_get row s;
          p ← list_get P i;
          Ok (c * p)) (enumerate DIAGNOSES)
  = Ok (zip_with (fun d p => cpt d s * p) DIAGNOSES P).
Proof.
  intros Hlen Hs. apply mapM_enumerate; [symmetry; exact Hlen|].
  intros i d p Hd Hp.
  destruct (cpt_lookup d s) as (row & Hrow & Hc & _);
    [eapply list_elem_of_lookup_2; exact Hd | exact Hs |].
  rewrite Hrow, bind_Ok, Hc, bind_Ok, (list_get_Ok P i p Hp), bind_Ok.
  reflexivity.
Qed.

(** The value of [calculate_information_gain] on a distribution. *)
Lemma calculate_information_gain_Ok (P : list R) (s : string) :
  is_distribution P -> s ∈ catalog ->
  exists Y N : list R,
    bayesian_update P s true = Ok Y
    /\ bayesian_update P s false = Ok N
    /\ calculate_information_gain P s
       = Ok (entropy P - (P_yes P s * entropy Y + P_no P s * entropy N))
    /\ 0 <= entropy P - (P_yes P s * entropy Y + P_no P s * entropy N).
Proof.
  intros HP Hs.
  pose proof (unnormalized_pos P s true Hs HP) as Hy.
  pose proof (unnormalized_pos P s false Hs HP) as Hn.
  pose proof (unnormalized_no P s HP) as HPno.
  rewrite unnormalized_yes in Hy. rewrite HPno in Hn.
  destruct HP as (Hlen & Hpos & Hsum).
  assert (HY : bayesian_update P s true
               = Ok (map (fun x => x / P_yes P s) (unnormalized P s true))).
  { rewrite (bayesian_update_normal P s true Hlen Hs);
      rewrite unnormalized_yes; [reflexivity | lra]. }
  assert (HN : bayesian_update P s false
               = Ok (map (fun x => x / P_no P s) (unnormalized P s false))).
  { rewrite (bayesian_update_normal P s false Hlen Hs);
      rewrite HPno; [reflexivity | lra]. }
  eexists; eexists. split; [exact HY|]. split; [exact HN|]. split.
  - unfold calculate_information_gain.
    rewrite calculate_entropy_Ok, bind_Ok.
    rewrite (P_yes_terms P s Hlen Hs), bind_Ok.
    rewrite HY, bind_Ok, calculate_entropy_Ok, bind_Ok.
    rewrite HN, bind_Ok, calculate_entropy_Ok, bind_Ok.
    unfold P_no, P_yes. do 3 f_equal. lra.
  - unfold unnormalized, likelihood.
    rewrite (gain_decompose (fun d => cpt d s)) by (symmetry; exact Hlen).
    apply py_sum_nonneg, gain_terms_nonneg; try assumption.
    + unfold P_no. lra.
    + intros d Hd. destruct (cpt_lookup d s Hd Hs) as (_ & _ & _ & Hc). exact Hc.
Qed.

End InformationGain.

(** C4: on a distribution and a catalog symptom,
    [calculate_information_gain] returns
    entropy(P) - (P(yes) * entropy(update(P, s, yes))
                  + P(no) * entropy(update(P, s, no)))
    with P(yes) = sum over d of CPT[d][s] * P(d) and P(no) = 1 - P(yes), and
    this number is non-negative (over the reals). *)
Theorem calculate_information_gain_nonneg :
  forall (P : list R) (s : string),
    is_distribution P ->
    s ∈ catalog ->
    exists (Y N : list R) (H_current H_yes H_no IG : R),
      engine.calculate_entropy P = Ok H_current
      /\ engine.bayesian_update P s true = Ok Y
      /\ engine.calculate_entropy Y = Ok H_yes
      /\ engine.bayesian_update P s false = Ok N
      /\ engine.calculate_entropy N = Ok H_no
      /\ engine.calculate_information_gain P s = Ok IG
      /\ IG = H_current - (P_yes P s * H_yes + P_no P s * H_no)
      /\ 0 <= IG.
Proof.
  intros P s HP Hs.
  destruct (calculate_information_gain_Ok P s HP Hs) as (Y & N & HY & HN & HIG & Hge).
  exists Y, N, (entropy P), (entropy Y), (entropy N).
  exists (entropy P - (P_yes P s * entropy Y + P_no P s * entropy N)).
  rewrite !calculate_entropy_Ok. repeat split; assumption.
Qed.

(** ** Next-question selection *)

Section Selection.
Import data engine.

Lemma foldM_consider (P : list R) (l : list string) (st : R * option string) :
  (forall k, k ∈ l -> exists g, calculate_information_gain P k = Ok g) ->
  foldM (consider P) l st = Ok (fold_left (pick (gain P)) l st).
Proof.
  revert st; induction l as [|k l IH]; intros [m b] Hl; [reflexivity|].
  simpl. destruct (Hl k ltac:(left)) as (g & Hg).
  assert (Hgain : gain P k = g) by (unfold gain; rewrite Hg; reflexivity).
  rewrite Hg, bind_Ok. unfold pick at 2. simpl fst. rewrite Hgain.
  destruct (Rlt_dec m g); rewrite bind_Ok; apply IH;
    intros k' Hk'; apply Hl; now right.
Qed.

(** The loop keeps the first key of maximal gain, if any gain beats the
    initial bound. *)
Lemma pick_fold (G : string -> R) (l : list string) (m : R) (b : option string) :
  (fold_left (pick G) l (m, b) = (m, b) /\ forall k, k ∈ l -> G k <= m)
  \/ (exists pre k post,
        l = pre ++ k :: post
        /\ fold_left (pick G) l (m, b) = (G k, Some k)
        /\ m < G k
        /\ (forall x, x ∈ pre -> G x < G k)
        /\ (forall x, x ∈ post -> G x <= G k)).
Proof.
  revert m b; induction l as [|x l IH]; intros m b.
  - left. split; [reflexivity|]. intros k Hk. apply elem_of_nil in Hk. contradiction.
  - simpl fold_left.
    destruct (Rlt_dec m (G x)) as [Hlt | Hge] eqn:E.
    + replace (pick G (m, b) x) with (G x, Some x)
        by (unfold pick; simpl fst; rewrite E; reflexivity).
      right.
      destruct (IH (G x) (Some x))
        as [[Heq Hall] | (pre & k & post & -> & Heq & Hk & Hpre & Hpost)].
      * exists [], x, l.
        split; [reflexivity|]. split; [exact Heq|]. split; [exact Hlt|].
        split; [|exact Hall].
        intros y Hy. apply elem_of_nil in Hy. contradiction.
      * exists (x :: pre), k, post.
        split; [reflexivity|]. split; [exact Heq|]. split; [lra|].
        split; [|exact Hpost].
        intros y Hy. apply elem_of_cons in Hy as [-> | Hy];
          [exact Hk | apply Hpre, Hy].
    + replace (pick G (m, b) x) with (m, b)
        by (unfold pick; simpl fst; rewrite E; reflexivity).
      destruct (IH m b)
        as [[Heq Hall] | (pre & k & post & -> & Heq & Hk & Hpre & Hpost)].
      * left. split; [exact Heq|].
        intros y Hy. apply elem_of_cons in Hy as [-> | Hy];
          [lra | apply Hall, Hy].
      * right. exists (x :: pre), k, post.
        split; [reflexivity|]. split; [exact Heq|]. split; [exact Hk|].
        split; [|exact Hpost].
        intros y Hy. apply elem_of_cons in Hy as [-> | Hy];
          [lra | apply Hpre, Hy].
Qed.

Lemma filter_split {A : Type} (Q : A -> Prop) `{forall x, Decision (Q x)}
    (l pre post : list A) (k : A) :
  filter Q l = pre ++ k :: post ->
  exists l1 l2, l = l1 ++ k :: l2 /\ filter Q l1 = pre /\ filter Q l2 = post.
Proof.
  revert pre; induction l as [|x l IH]; intros pre Hf.
  - destruct pre; discriminate.
  - rewrite filter_cons in Hf. destruct (decide (Q x)) as [Hx | Hx].
    + destruct pre as [|y pre]; simpl in Hf; injection Hf as <- Hf.
      * exists [], l. split; [reflexivity|]. split; [reflexivity | exact Hf].
      * destruct (IH pre Hf) as (l1 & l2 & -> & H1 & H2).
        exists (x :: l1), l2. split; [reflexivity|]. split; [|exact H2].
        rewrite filter_cons_True by exact Hx. rewrite H1. reflexivity.
    + destruct (IH pre Hf) as (l1 & l2 & -> & H1 & H2).
      exists (x :: l1), l2. split; [reflexivity|]. split; [|exact H2].
      rewrite filter_cons_False by exact Hx. exact H1.
Qed.

Lemma dict_get_keys {V : Type} (d : list (string * V)) (k : string) :
  k ∈ dict_keys d -> exists v, dict_get d k = Ok v.
Proof.
  induction d as [|[k' v] d IH]; intros Hk.
  - apply elem_of_nil in Hk. contradiction.
  - simpl. destruct (String.eqb k' k) eqn:E; [eexists; reflexivity|].
    apply IH. unfold dict_keys in Hk. simpl in Hk.
    apply elem_of_cons in Hk as [-> | Hk]; [|exact Hk].
    rewrite String.eqb_refl in E. discriminate.
Qed.

Lemma gain_Ok (P : list R) (k : string) :
  is_distribution P -> k ∈ catalog ->
  calculate_information_gain P k = Ok (gain P k) /\ 0 <= gain P k.
Proof.
  intros HP Hk.
  destruct (calculate_information_gain_Ok P k HP Hk) as (Y & N & _ & _ & HIG & Hge).
  unfold gain. rewrite HIG. split; [reflexivity | exact Hge].
Qed.

(** What [get_next_question] returns while a question is left. *)
Lemma get_next_question_Ok (P : list R) (asked : gset string) :
  is_distribution P ->
  (exists k, k ∈ catalog /\ k ∉ asked) ->
  exists l1 k l2 text,
    catalog = l1 ++ k :: l2
    /\ (k ∉ asked)
    /\ dict_get SYMPTOMS k = Ok text
    /\ get_next_question P asked = Ok (Some text, Some k, gain P k)
    /\ (forall x, x ∈ l1 -> x ∉ asked -> gain P x < gain P k)
    /\ (forall x, x ∈ l2 -> x ∉ asked -> gain P x <= gain P k).
Proof.
  intros HP (k0 & Hk0 & Hk0').
  unfold get_next_question. fold catalog.
  set (unasked := filter (fun k => k ∉ asked) catalog).
  assert (Hin : forall k, k ∈ unasked -> k ∈ catalog /\ k ∉ asked).
  { intros k Hk. apply list_elem_of_filter in Hk as [? ?]. split; assumption. }
  assert (H0 : k0 ∈ unasked) by (apply list_elem_of_filter; split; assumption).
  rewrite (foldM_consider P unasked)
    by (intros k Hk; exists (gain P k); apply gain_Ok; [exact HP | apply Hin, Hk]).
  destruct (pick_fold (gain P) unasked (-1) None)
    as [[_ Hall] | (pre & k & post & Hsplit & Heq & _ & Hpre & Hpost)].
  - exfalso. pose proof (Hall k0 H0) as Hle.
    destruct (gain_Ok P k0 HP Hk0) as [_ Hge]. lra.
  - destruct (filter_split _ _ _ _ _ Hsplit) as (l1 & l2 & Hcat & H1 & H2).
    assert (Hk : k ∈ unasked) by (rewrite Hsplit; apply elem_of_app; right; left).
    destruct (Hin k Hk) as [Hkc Hka].
    destruct (dict_get_keys SYMPTOMS k Hkc) as (text & Htext).
    exists l1, k, l2, text. split; [exact Hcat|]. split; [exact Hka|].
    split; [exact Htext|]. split; [|split].
    + rewrite Heq, bind_Ok. rewrite Htext, bind_Ok.
      destruct unasked; [apply elem_of_nil in Hk; contradiction | reflexivity].
    + intros x Hx Hxa. apply Hpre. rewrite <- H1.
      apply list_elem_of_filter. split; assumption.
    + intros x Hx Hxa. apply Hpost. rewrite <- H2.
      apply list_elem_of_filter. split; assumption.
Qed.

Lemma foldM_consider_best (P : list R) (l : list string)
    (m m' : R) (b b' : option string) :
  foldM (consider P) l (m, b) = Ok (m', b') ->
  b' = b \/ exists k, k ∈ l /\ b' = Some k.
Proof.
  revert m b; induction l as [|x l IH]; intros m b Hf; simpl in Hf.
  - injection Hf as _ <-. left. reflexivity.
  - destruct (calculate_information_gain P x) as [g|e]; [|discriminate].
    rewrite bind_Ok in Hf.
    destruct (Rlt_dec m g); rewrite bind_Ok in Hf; apply IH in Hf.
    + right. destruct Hf as [-> | (k & Hk & ->)].
      * exists x. split; [left | reflexivity].
      * exists k. split; [now right | reflexivity].
    + destruct Hf as [-> | (k & Hk & ->)]; [left; reflexivity | right].
      exists k. split; [now right | reflexivity].
Qed.

Lemma filter_all_asked (asked : gset string) (keys : list string) :
  (forall k, k ∈ keys -> k ∈ asked) ->
  filter (fun k => k ∉ asked) keys = [].
Proof.
  induction keys as [|k l IH]; intros Hall; [reflexivity|].
  rewrite filter_cons_False by (intros Hk; apply Hk, Hall; left).
  apply IH. intros k' Hk'. apply Hall. now right.
Qed.

End Selection.


(** C7: once the asked-set holds every symptom of the catalog,
    [get_next_question] returns the value (None, None, 0), whatever the
    list [P]; it does not raise. *)
Theorem get_next_question_exhausted :
  forall (P : list R) (asked : gset string),
    (forall k, k ∈ catalog -> k ∈ asked) ->
    engine.get_next_question P asked = Ok (None, None, 0).
Proof.
  intros P asked Hall. unfold engine.get_next_question. fold catalog.
  rewrite (filter_all_asked asked catalog Hall). reflexivity.
Qed.

Lemma S1_left : "S1" ∈ catalog /\ ("S1" ∉ all_but_S1).
Proof.
  split; [left|]. unfold all_but_S1. rewrite elem_of_list_to_set.
  intros H. cbn in H.
  repeat (apply elem_of_cons in H as [H | H]; [discriminate|]).
  apply elem_of_nil in H. exact H.
Qed.

Lemma only_S1_left (k : string) : k ∈ catalog -> k ∉ all_but_S1 -> k = "S1".
Proof.
  intros Hk Hn. unfold all_but_S1 in Hn. rewrite elem_of_list_to_set in Hn.
  change catalog with ("S1" :: drop 1 catalog) in Hk.
  apply elem_of_cons in Hk as [-> | Hk]; [reflexivity | contradiction].
Qed.

(** With S1 alone left to ask, the result is S1's text, then "S1". *)
Lemma get_next_question_S1 :
  exists g : R,
    engine.get_next_question uniform all_but_S1
    = Ok (Some "Is your pain best described as throbbing or pulsating?",
          Some "S1", g).
Proof.
  destruct (get_next_question_Ok uniform all_but_S1 uniform_distribution)
    as (l1 & k & l2 & text & Hcat & Hk & Htext & Hret & _).
  - exists "S1". exact S1_left.
  - assert (Hkc : k ∈ catalog)
      by (rewrite Hcat; apply elem_of_app; right; left).
    pose proof (only_S1_left k Hkc Hk) as ->.
    injection Htext as <-. eexists. exact Hret.
Qed.

(** C9, as amended: while a question is left, any triple returned by
    [get_next_question] is (question text, symptom id, gain): the second
    component is the selected symptom, a catalog entry outside the
    asked-set, and the first is the text SYMPTOMS holds for it; on a
    distribution such a triple is returned. *)
Theorem get_next_question_triple :
  forall (P : list R) (asked : gset string),
    (exists k, k ∈ catalog /\ (k ∉ asked)) ->
    (forall r, engine.get_next_question P asked = Ok r ->
               text_then_id r
               /\ exists k, snd (fst r) = Some k /\ (k ∉ asked))
    /\ (is_distribution P -> exists r, engine.get_next_question P asked = Ok r).
Proof.
  intros P asked Hleft. split.
  - intros [[a b] g] Hret. unfold engine.get_next_question in Hret.
    fold catalog in Hret.
    remember (filter (fun k => k ∉ asked) catalog) as unasked eqn:E.
    assert (Hin : forall k, k ∈ unasked -> k ∈ catalog /\ (k ∉ asked)).
    { intros k Hk. rewrite E in Hk.
      apply list_elem_of_filter in Hk as [? ?]. split; assumption. }
    destruct Hleft as (k0 & Hk0 & Hk0').
    assert (H0 : k0 ∈ unasked)
      by (rewrite E; apply list_elem_of_filter; split; assumption).
    destruct unasked as [|u rest];
      [apply elem_of_nil in H0; contradiction|].
    destruct (foldM (engine.consider P) (u :: rest) (-1, None))
      as [[m best]|e] eqn:Hfold; [|discriminate].
    rewrite bind_Ok in Hret.
    apply foldM_consider_best in Hfold as [-> | (k & Hk & ->)]; [discriminate|].
    destruct (dict_get data.SYMPTOMS k) as [text|e] eqn:Htext; [|discriminate].
    rewrite bind_Ok in Hret. injection Hret as <- <- <-.
    destruct (Hin k Hk) as [Hkc Hka]. split.
    + exists k, text. simpl. repeat split; assumption.
    + exists k. split; [reflexivity | exact Hka].
  - intros HP.
    destruct (get_next_question_Ok P asked HP Hleft)
      as (_ & k & _ & text & _ & _ & _ & Hret & _).
    eexists. exact Hret.
Qed.

(** C9, as first stated, fails: with S1 alone left to ask, the first
    component of the result is S1's question text, which is no symptom
    identifier. *)
Lemma get_next_question_first_is_not_id :
  (exists k, k ∈ catalog /\ (k ∉ all_but_S1))
  /\ exists r, engine.get_next_question uniform all_but_S1 = Ok r
               /\ ~ id_then_text r.
Proof.
  split; [exists "S1"; exact S1_left|].
  destruct get_next_question_S1 as [g Hg].
  eexists. split; [exact Hg|].
  intros (k & text & Ha & _ & Hk & _). simpl in Ha. injection Ha as <-.
  unfold catalog in Hk. cbn in Hk.
  repeat (apply elem_of_cons in Hk as [Hk | Hk]; [discriminate|]).
  apply elem_of_nil in Hk. exact Hk.
Qed.

(** ** The theorems at concrete inputs *)

Lemma weighted_zeros (w : string -> R) (l : list string) (n : nat) :
  py_sum (zip_with (fun d p => w d * p) l (replicate n 0)) = 0.
Proof.
  revert n; induction l as [|d l IH]; intros [|n]; simpl;
    try (rewrite py_sum_nil; reflexivity).
  rewrite py_sum_cons, IH. lra.
Qed.

Lemma zeros_nonneg : Forall (Rle 0) zeros.
Proof. apply Forall_replicate. lra. Qed.

Lemma S1_in_catalog : "S1" ∈ catalog.
Proof. left. Qed.

Lemma bayesian_update_bayes_rule_witness :
  is_distribution uniform
  /\ "S1" ∈ catalog
  /\ engine.bayesian_update uniform "S1" true
     = Ok (zip_with
             (fun d p => likelihood "S1" true d * p
                         / py_sum (unnormalized uniform "S1" true))
             data.DIAGNOSES uniform).
Proof.
  split; [exact uniform_distribution|]. split; [exact S1_in_catalog|].
  apply (bayesian_update_bayes_rule uniform "S1" true
           uniform_distribution S1_in_catalog).
  pose proof (unnormalized_pos uniform "S1" true S1_in_catalog
                uniform_distribution).
  lra.
Defined.


Lemma calculate_entropy_shannon_witness :
  is_distribution uniform /\ engine.calculate_entropy uniform = Ok 3.
Proof.
  split; [exact uniform_distribution|].
  apply (calculate_entropy_shannon uniform uniform_distribution). reflexivity.
Defined.

Lemma calculate_information_gain_nonneg_witness :
  is_distribution uniform
  /\ "S1" ∈ catalog
  /\ exists IG : R,
       engine.calculate_information_gain uniform "S1" = Ok IG /\ 0 <= IG.
Proof.
  split; [exact uniform_distribution|]. split; [exact S1_in_catalog|].
  destruct (calculate_information_gain_nonneg uniform "S1"
              uniform_distribution S1_in_catalog)
    as (_ & _ & _ & _ & _ & IG & _ & _ & _ & _ & _ & HIG & _ & Hge).
  exists IG. split; [exact HIG | exact Hge].
Defined.

Lemma bayesian_update_total_probability_witness :
  is_distribution uniform
  /\ "S1" ∈ catalog
  /\ exists Y N : list R,
       engine.bayesian_update uniform "S1" true = Ok Y
       /\ engine.bayesian_update uniform "S1" false = Ok N
       /\ zip_with (fun y n => P_yes uniform "S1" * y + P_no uniform "S1" * n) Y N
          = uniform.
Proof.
  split; [exact uniform_distribution|]. split; [exact S1_in_catalog|].
  exact (bayesian_update_total_probability uniform "S1"
           uniform_distribution S1_in_catalog).
Defined.

Lemma bayesian_update_zero_denominator_witness :
  length zeros = data.NUM_DIAGNOSES
  /\ py_sum (unnormalized zeros "S1" true) = 0
  /\ engine.bayesian_update zeros "S1" true = Ok (replicate 8 (1 / 8)).
Proof.
  split; [reflexivity|].
  split; [apply (weighted_zeros (likelihood "S1" true))|].
  apply (bayesian_update_zero_denominator zeros "S1" true eq_refl S1_in_catalog).
  apply (weighted_zeros (likelihood "S1" true)).
Defined.

Lemma get_next_question_exhausted_witness :
  (forall k, k ∈ catalog -> k ∈ all_asked)
  /\ engine.get_next_question uniform all_asked = Ok (None, None, 0).
Proof.
  assert (H : forall k, k ∈ catalog -> k ∈ all_asked)
    by (intros k Hk; unfold all_asked; rewrite elem_of_list_to_set; exact Hk).
  split; [exact H|].
  exact (get_next_question_exhausted uniform all_asked H).
Defined.

Lemma bayesian_update_distribution_witness :
  length zeros = data.NUM_DIAGNOSES
  /\ Forall (Rle 0) zeros
  /\ exists Q : list R,
       engine.bayesian_update zeros "S1" false = Ok Q /\ is_distribution Q.
Proof.
  split; [reflexivity|]. split; [exact zeros_nonneg|].
  destruct (bayesian_update_distribution zeros "S1" false eq_refl zeros_nonneg
              S1_in_catalog) as (Q & HQ & Hd & _).
  exists Q. split; [exact HQ | exact Hd].
Defined.

Lemma get_next_question_triple_witness :
  (exists k, k ∈ catalog /\ (k ∉ all_but_S1))
  /\ exists r, engine.get_next_question uniform all_but_S1 = Ok r
               /\ text_then_id r.
Proof.
  assert (Hleft : exists k, k ∈ catalog /\ (k ∉ all_but_S1))
    by (exists "S1"; exact S1_left).
  split; [exact Hleft|].
  destruct get_next_question_S1 as [g Hg].
  eexists. split; [exact Hg|].
  exact (proj1 (proj1 (get_next_question_triple uniform all_but_S1 Hleft) _ Hg)).
Defined.

Lemma calculate_entropy_total_witness :
  engine.calculate_entropy [-1; 2] = engine.calculate_entropy [2].
Proof.
  apply (calculate_entropy_total [-1; 2]) with (l1 := []) (p := -1) (l2 := [2]);
    [reflexivity | lra].
Defined.

(** * Further properties of the engine *)

(** ** Unknown symptoms and lists of the wrong length *)

Section Failures.
Import data engine.

Lemma dict_get_absent {V : Type} (d : list (string * V)) (k : string) :
  k ∉ dict_keys d -> dict_get d k = Raise KeyError.
Proof.
  induction d as [|[k' v] d IH]; intros Hk; [reflexivity|].
  simpl. destruct (String.eqb k' k) eqn:E.
  - apply String.eqb_eq in E as ->. exfalso. apply Hk. left.
  - apply IH. intros Hin. apply Hk. right. exact Hin.
Qed.

Lemma CPT_row (d : string) :
  d ∈ DIAGNOSES ->
  exists row, dict_get CPT d = Ok row /\ dict_keys row = catalog.
Proof.
  intros Hd. cbn in Hd.
  repeat (apply elem_of_cons in Hd as [-> | Hd];
          [eexists; split; reflexivity|]).
  apply elem_of_nil in Hd. contradiction.
Qed.

Lemma mapM_raise_head {A B : Type} (f : A -> result B) (x : A) (l : list A)
    (e : exn) :
  f x = Raise e -> mapM f (x :: l) = Raise e.
Proof. intros H. simpl. rewrite H. reflexivity. Qed.

Lemma mapM_ext_in {A B : Type} (f g : A -> result B) (l : list A) :
  (forall x, x ∈ l -> f x = g x) -> mapM f l = mapM g l.
Proof.
  induction l as [|x l IH]; intros H; [reflexivity|].
  simpl. rewrite (H x) by left.
  rewrite IH by (intros y Hy; apply H; now right). reflexivity.
Qed.

(** The prefix of [l] matched by [P] succeeds, the first unmatched element
    raises: so does the whole map. *)
Lemma mapM_indexed_short {A B C : Type} (f : A -> result C) (g : A -> B -> C)
    (l : list A) (P : list B) (e : exn) :
  (length P < length l)%nat ->
  (forall i x p, l !! i = Some x -> P !! i = Some p -> f x = Ok (g x p)) ->
  (forall i x, l !! i = Some x -> P !! i = None -> f x = Raise e) ->
  mapM f l = Raise e.
Proof.
  revert P; induction l as [|x l IH]; intros P Hlen Hok Hbad;
    simpl in Hlen; [lia|].
  destruct P as [|p P].
  - apply mapM_raise_head. exact (Hbad 0%nat x eq_refl eq_refl).
  - simpl. rewrite (Hok 0%nat x p eq_refl eq_refl), bind_Ok.
    rewrite (IH P); [reflexivity | simpl in Hlen; lia | |].
    + intros i y q Hy Hq. exact (Hok (S i) y q Hy Hq).
    + intros i y Hy Hq. exact (Hbad (S i) y Hy Hq).
Qed.

Lemma list_get_None {T : Type} (l : list T) (i : nat) :
  l !! i = None -> list_get l i = Raise IndexError.
Proof. unfold list_get. intros ->. reflexivity. Qed.

Lemma mapM_raise_first {A B : Type} (f : A -> result B) (l : list A) (x : A)
    (e : exn) :
  l !! 0%nat = Some x -> f x = Raise e -> mapM f l = Raise e.
Proof.
  destruct l as [|y l]; intros Hx Hf; [discriminate|].
  injection Hx as ->. apply mapM_raise_head, Hf.
Qed.

Lemma mapM_enumerate_from_short {A B C : Type} (f : nat * A -> result C)
    (g : A -> B -> C) (l : list A) (P : list B) (k : nat) (e : exn) :
  (length P < length l)%nat ->
  (forall i x p, l !! i = Some x -> P !! i = Some p ->
                 f ((k + i)%nat, x) = Ok (g x p)) ->
  (forall i x, l !! i = Some x -> P !! i = None ->
               f ((k + i)%nat, x) = Raise e) ->
  mapM f (imap (fun i x => ((k + i)%nat, x)) l) = Raise e.
Proof.
  revert P k; induction l as [|x l IH]; intros P k Hlen Hok Hbad;
    simpl in Hlen; [lia|].
  destruct P as [|p P].
  - apply mapM_raise_head. exact (Hbad 0%nat x eq_refl eq_refl).
  - simpl. rewrite (Hok 0%nat x p eq_refl eq_refl), bind_Ok.
    rewrite (imap_ext _ (fun i x => ((S k + i)%nat, x)))
      by (intros i y _; simpl; f_equal; lia).
    rewrite (IH P (S k)); [reflexivity | simpl in Hlen; lia | |].
    + intros i y q Hy Hq. rewrite <- (Hok (S i) y q Hy Hq). do 2 f_equal. lia.
    + intros i y Hy Hq. rewrite <- (Hbad (S i) y Hy Hq). do 2 f_equal. lia.
Qed.

Lemma bayesian_update_KeyError (P : list R) (s : string) (a : bool) :
  s ∉ catalog -> bayesian_update P s a = Raise KeyError.
Proof.
  intros Hs. unfold bayesian_update.
  erewrite (mapM_raise_first _ DIAGNOSES "Migraine"); [reflexivity..|].
  destruct (CPT_row "Migraine" ltac:(left)) as (row & Hrow & Hkeys).
  rewrite Hrow, bind_Ok, dict_get_absent by (rewrite Hkeys; exact Hs).
  reflexivity.
Qed.

Lemma calculate_information_gain_KeyError (P : list R) (s : string) :
  s ∉ catalog -> calculate_information_gain P s = Raise KeyError.
Proof.
  intros Hs. unfold calculate_information_gain.
  rewrite calculate_entropy_Ok, bind_Ok.
  erewrite (mapM_raise_first _ (enumerate DIAGNOSES) (0%nat, "Migraine"));
    [reflexivity..|].
  destruct (CPT_row "Migraine" ltac:(left)) as (row & Hrow & Hkeys).
  rewrite Hrow, bind_Ok, dict_get_absent by (rewrite Hkeys; exact Hs).
  reflexivity.
Qed.

Lemma bayesian_update_IndexError (P : list R) (s : string) (a : bool) :
  (length P < NUM_DIAGNOSES)%nat -> s ∈ catalog ->
  bayesian_update P s a = Raise IndexError.
Proof.
  intros Hlen Hs. unfold bayesian_update.
  erewrite (mapM_indexed_short _ (fun d p => likelihood s a d * p) DIAGNOSES P);
    [reflexivity | exact Hlen | |].
  - intros i d p Hd Hp.
    destruct (cpt_lookup d s) as (row & Hrow & Hc & _);
      [eapply list_elem_of_lookup_2; exact Hd | exact Hs |].
    rewrite Hrow, bind_Ok, Hc, bind_Ok.
    rewrite (list_index_DIAGNOSES i d Hd), bind_Ok.
    rewrite (list_get_Ok P i p Hp), bind_Ok.
    unfold likelihood. destruct a; simpl negb; cbv iota; do 2 f_equal; lra.
  - intros i d Hd Hp.
    destruct (cpt_lookup d s) as (row & Hrow & Hc & _);
      [eapply list_elem_of_lookup_2; exact Hd | exact Hs |].
    rewrite Hrow, bind_Ok, Hc, bind_Ok.
    rewrite (list_index_DIAGNOSES i d Hd), bind_Ok.
    rewrite (list_get_None P i Hp). reflexivity.
Qed.

Lemma calculate_information_gain_IndexError (P : list R) (s : string) :
  (length P < NUM_DIAGNOSES)%nat -> s ∈ catalog ->
  calculate_information_gain P s = Raise IndexError.
Proof.
  intros Hlen Hs. unfold calculate_information_gain.
  rewrite calculate_entropy_Ok, bind_Ok.
  unfold enumerate.
  erewrite (mapM_enumerate_from_short _ (fun d p => cpt d s * p) DIAGNOSES P 0);
    [reflexivity | exact Hlen | |].
  - intros i d p Hd Hp.
    destruct (cpt_lookup d s) as (row & Hrow & Hc & _);
      [eapply list_elem_of_lookup_2; exact Hd | exact Hs |].
    cbv beta iota. change (0 + i)%nat with i.
    rewrite Hrow, bind_Ok, Hc, bind_Ok, (list_get_Ok P i p Hp), bind_Ok.
    reflexivity.
  - intros i d Hd Hp.
    destruct (cpt_lookup d s) as (row & Hrow & Hc & _);
      [eapply list_elem_of_lookup_2; exact Hd | exact Hs |].
    cbv beta iota. change (0 + i)%nat with i.
    rewrite Hrow, bind_Ok, Hc, bind_Ok, (list_get_None P i Hp).
    reflexivity.
Qed.

Lemma S99_absent : "S99" ∉ catalog.
Proof.
  intros H. unfold catalog in H. cbn in H.
  repeat (apply elem_of_cons in H as [H | H]; [discriminate|]).
  apply elem_of_nil in H. exact H.
Qed.

End Failures.

(** X1: a symptom key that is not in the catalog makes both
    [bayesian_update] and [calculate_information_gain] raise KeyError,
    whatever the list [P] (the CPT is read before [P] is indexed, so this
    holds for lists of any length, the empty one included). *)
Theorem unknown_symptom_raises_KeyError :
  forall (P : list R) (s : string) (answer_is_yes : bool),
    s ∉ catalog ->
    engine.bayesian_update P s answer_is_yes = Raise KeyError
    /\ engine.calculate_information_gain P s = Raise KeyError.
Proof.
  intros P s a Hs. split.
  - apply bayesian_update_KeyError, Hs.
  - apply calculate_information_gain_KeyError, Hs.
Qed.

Lemma unknown_symptom_raises_KeyError_witness :
  ("S99" ∉ catalog)
  /\ engine.bayesian_update [] "S99" false = Raise KeyError
  /\ engine.calculate_information_gain uniform "S99" = Raise KeyError.
Proof.
  split; [exact S99_absent|]. split.
  - exact (proj1 (unknown_symptom_raises_KeyError [] "S99" false S99_absent)).
  - exact (proj2 (unknown_symptom_raises_KeyError uniform "S99" false S99_absent)).
Defined.

Section ShortLists.
Import data engine.

Lemma get_next_question_IndexError (P : list R) (asked : gset string) :
  (length P < NUM_DIAGNOSES)%nat ->
  (exists k, k ∈ catalog /\ (k ∉ asked)) ->
  get_next_question P asked = Raise IndexError.
Proof.
  intros Hlen (k0 & Hk0 & Hk0'). unfold get_next_question. fold catalog.
  remember (filter (fun k => k ∉ asked) catalog) as unasked eqn:E.
  assert (H0 : k0 ∈ unasked)
    by (rewrite E; apply list_elem_of_filter; split; assumption).
  destruct unasked as [|u rest]; [apply elem_of_nil in H0; contradiction|].
  assert (Hu : u ∈ catalog).
  { assert (Hin : u ∈ u :: rest) by left.
    rewrite E in Hin. apply list_elem_of_filter in Hin as [_ ?]. assumption. }
  simpl foldM. unfold consider at 1.
  rewrite (calculate_information_gain_IndexError P u Hlen Hu). reflexivity.
Qed.

Lemma bayesian_update_take (P : list R) (s : string) (a : bool) :
  bayesian_update P s a = bayesian_update (take NUM_DIAGNOSES P) s a.
Proof.
  unfold bayesian_update. f_equal. apply mapM_ext_in. intros d Hd.
  destruct (dict_get CPT d) as [row|e]; [|reflexivity]. rewrite !bind_Ok.
  destruct (dict_get row s) as [c|e]; [|reflexivity]. rewrite !bind_Ok.
  apply list_elem_of_lookup_1 in Hd as [i Hi].
  rewrite (list_index_DIAGNOSES i d Hi), !bind_Ok.
  apply lookup_lt_Some in Hi.
  unfold list_get. rewrite lookup_take_lt by exact Hi. reflexivity.
Qed.

End ShortLists.

(** X2: on a list with fewer than 8 entries and a catalog symptom,
    [bayesian_update] and [calculate_information_gain] raise IndexError, and
    so does [get_next_question] whenever a symptom is left to ask. *)
Theorem short_list_raises_IndexError :
  forall (P : list R) (s : string) (answer_is_yes : bool) (asked : gset string),
    (length P < data.NUM_DIAGNOSES)%nat ->
    s ∈ catalog ->
    (s ∉ asked) ->
    engine.bayesian_update P s answer_is_yes = Raise IndexError
    /\ engine.calculate_information_gain P s = Raise IndexError
    /\ engine.get_next_question P asked = Raise IndexError.
Proof.
  intros P s a asked Hlen Hs Hn. split; [|split].
  - apply bayesian_update_IndexError; assumption.
  - apply calculate_information_gain_IndexError; assumption.
  - apply get_next_question_IndexError; [exact Hlen|].
    exists s. split; assumption.
Qed.

Lemma short_list_raises_IndexError_witness :
  engine.bayesian_update [1] "S1" true = Raise IndexError
  /\ engine.calculate_information_gain [1] "S1" = Raise IndexError
  /\ engine.get_next_question [1] ∅ = Raise IndexError.
Proof.
  apply (short_list_raises_IndexError [1] "S1" true ∅).
  - simpl. unfold data.NUM_DIAGNOSES. simpl. lia.
  - exact S1_in_catalog.
  - apply not_elem_of_empty.
Defined.

(** X3: [bayesian_update] reads the first 8 entries of its list and
    nothing else: a longer list is accepted silently and its further entries
    do not change the result (or the exception). *)
Theorem bayesian_update_reads_prefix :
  forall (P : list R) (s : string) (answer_is_yes : bool),
    engine.bayesian_update P s answer_is_yes
    = engine.bayesian_update (take 8 P) s answer_is_yes.
Proof.
  intros P s a. apply bayesian_update_take.
Qed.

(** ** The posterior as evidence accumulates *)

Section Evidence.
Import data engine.

Lemma bayesian_update_posterior (P : list R) (s : string) (a : bool) :
  is_distribution P -> s ∈ catalog ->
  bayesian_update P s a = Ok (posterior P s a)
  /\ is_distribution (posterior P s a).
Proof.
  intros HP Hs.
  pose proof (unnormalized_pos P s a Hs HP) as Hz.
  destruct HP as (Hlen & Hpos & Hsum).
  pose proof (unnormalized_nonneg P s a Hs Hpos) as HU.
  split.
  - apply bayesian_update_normal; [exact Hlen | exact Hs | lra].
  - unfold posterior. split; [|split].
    + rewrite length_map. apply unnormalized_length, Hlen.
    + apply Forall_map. eapply Forall_impl; [exact HU|].
      intros x Hx. simpl. apply Rmult_le_pos; [exact Hx|].
      apply Rlt_le, Rinv_0_lt_compat. exact Hz.
    + rewrite py_sum_div. field. lra.
Qed.

Lemma posterior_lookup (P : list R) (s : string) (a : bool) (i : nat) (p q : R) :
  P !! i = Some p -> posterior P s a !! i = Some q ->
  exists d, DIAGNOSES !! i = Some d
            /\ q = likelihood s a d * p / py_sum (unnormalized P s a).
Proof.
  intros Hp Hq. unfold posterior in Hq.
  rewrite list_lookup_fmap in Hq.
  destruct (unnormalized P s a !! i) as [x|] eqn:Hx; [|discriminate].
  simpl in Hq. injection Hq as <-.
  unfold unnormalized in Hx at 1.
  apply lookup_zip_with_Some in Hx as (d & p' & -> & Hd & Hp').
  rewrite Hp in Hp'. injection Hp' as <-.
  exists d. split; [exact Hd | reflexivity].
Qed.

Lemma zip_with_after_norm (u v : string -> R) (l : list string) (P : list R)
    (z : R) :
  zip_with (fun d q => v d * q) l
    (map (fun x => x / z) (zip_with (fun d p => u d * p) l P))
  = map (fun x => x / z) (zip_with (fun d p => v d * u d * p) l P).
Proof.
  revert P; induction l as [|d l IH]; intros [|p P]; simpl; try reflexivity.
  rewrite IH. f_equal. unfold Rdiv. ring.
Qed.

Lemma map_div_div (l : list R) (z t : R) :
  z <> 0 -> t <> 0 ->
  map (fun x => x / (t / z)) (map (fun x => x / z) l) = map (fun x => x / t) l.
Proof.
  intros Hz Ht. rewrite map_map. apply map_ext. intros x. field.
  split; assumption.
Qed.

(** Two updates in a row: the prior reweighted by both likelihoods. *)
Lemma posterior_twice (P : list R) (s1 s2 : string) (a1 a2 : bool) :
  is_distribution P -> s1 ∈ catalog -> s2 ∈ catalog ->
  let J := zip_with (fun d p => likelihood s2 a2 d * likelihood s1 a1 d * p)
                    DIAGNOSES P in
  posterior (posterior P s1 a1) s2 a2 = map (fun x => x / py_sum J) J.
Proof.
  intros HP H1 H2 J.
  pose proof (unnormalized_pos P s1 a1 H1 HP) as Hz1.
  assert (HJ : 0 < py_sum J).
  { destruct HP as (Hlen & Hpos & Hsum).
    apply (weighted_pos (fun d => likelihood s2 a2 d * likelihood s1 a1 d));
      [|exact Hpos | symmetry; exact Hlen | lra].
    intros d Hd.
    pose proof (likelihood_range s1 a1 d H1 Hd).
    pose proof (likelihood_range s2 a2 d H2 Hd).
    apply Rmult_lt_0_compat; lra. }
  unfold unnormalized in Hz1.
  unfold posterior at 1. unfold unnormalized at 1 2.
  unfold posterior, unnormalized.
  rewrite (zip_with_after_norm (likelihood s1 a1) (likelihood s2 a2)).
  fold J. rewrite py_sum_div. apply map_div_div; lra.
Qed.

End Evidence.

(** X4: an update never rules a diagnosis in or out.  On a distribution
    and a catalog symptom the result has 8 entries, an entry that was 0 stays
    0, and an entry that was positive stays positive (every CPT entry lies
    strictly between 0 and 1). *)
Theorem bayesian_update_keeps_support :
  forall (P : list R) (s : string) (answer_is_yes : bool),
    is_distribution P ->
    s ∈ catalog ->
    exists Q : list R,
      engine.bayesian_update P s answer_is_yes = Ok Q
      /\ length Q = 8%nat
      /\ forall (i : nat) (p q : R),
           P !! i = Some p -> Q !! i = Some q ->
           (p = 0 -> q = 0) /\ (0 < p -> 0 < q).
Proof.
  intros P s a HP Hs.
  destruct (bayesian_update_posterior P s a HP Hs) as [Hret (Hlen & _ & _)].
  exists (posterior P s a). split; [exact Hret|]. split; [exact Hlen|].
  intros i p q Hp Hq.
  destruct (posterior_lookup P s a i p q Hp Hq) as (d & Hd & ->).
  pose proof (unnormalized_pos P s a Hs HP) as Hz.
  assert (Hin : d ∈ data.DIAGNOSES) by (eapply list_elem_of_lookup_2; exact Hd).
  pose proof (likelihood_range s a d Hs Hin) as HL.
  split.
  - intros ->. unfold Rdiv. ring.
  - intros Hpos. apply Rdiv_lt_0_compat; [apply Rmult_lt_0_compat; lra | exact Hz].
Qed.

Lemma bayesian_update_keeps_support_witness :
  is_distribution uniform
  /\ exists Q : list R,
       engine.bayesian_update uniform "S1" true = Ok Q /\ length Q = 8%nat.
Proof.
  split; [exact uniform_distribution|].
  destruct (bayesian_update_keeps_support uniform "S1" true
              uniform_distribution S1_in_catalog) as (Q & HQ & Hlen & _).
  exists Q. split; [exact HQ | exact Hlen].
Defined.

(** X5: the order of two answers does not matter: updating a
    distribution with the answer to [s1] and then with the answer to [s2]
    gives the same posterior as the two updates in the other order. *)
Theorem bayesian_update_commutes :
  forall (P : list R) (s1 s2 : string) (a1 a2 : bool),
    is_distribution P ->
    s1 ∈ catalog ->
    s2 ∈ catalog ->
    exists Q1 Q2 Q : list R,
      engine.bayesian_update P s1 a1 = Ok Q1
      /\ engine.bayesian_update Q1 s2 a2 = Ok Q
      /\ engine.bayesian_update P s2 a2 = Ok Q2
      /\ engine.bayesian_update Q2 s1 a1 = Ok Q.
Proof.
  intros P s1 s2 a1 a2 HP H1 H2.
  destruct (bayesian_update_posterior P s1 a1 HP H1) as [R1 D1].
  destruct (bayesian_update_posterior P s2 a2 HP H2) as [R2 D2].
  destruct (bayesian_update_posterior _ s2 a2 D1 H2) as [R12 _].
  destruct (bayesian_update_posterior _ s1 a1 D2 H1) as [R21 _].
  exists (posterior P s1 a1), (posterior P s2 a2),
         (posterior (posterior P s1 a1) s2 a2).
  split; [exact R1|]. split; [exact R12|]. split; [exact R2|].
  rewrite R21. f_equal.
  rewrite (posterior_twice P s1 s2 a1 a2 HP H1 H2).
  rewrite (posterior_twice P s2 s1 a2 a1 HP H2 H1). cbv zeta.
  assert (E : zip_with (fun d p => likelihood s1 a1 d * likelihood s2 a2 d * p)
                data.DIAGNOSES P
              = zip_with (fun d p => likelihood s2 a2 d * likelihood s1 a1 d * p)
                  data.DIAGNOSES P).
  { apply zip_with_ext; [|reflexivity..]. intros d p. ring. }
  rewrite E. reflexivity.
Qed.

Lemma bayesian_update_commutes_witness :
  is_distribution uniform
  /\ exists Q1 Q2 Q : list R,
       engine.bayesian_update uniform "S1" true = Ok Q1
       /\ engine.bayesian_update Q1 "S1" false = Ok Q
       /\ engine.bayesian_update uniform "S1" false = Ok Q2
       /\ engine.bayesian_update Q2 "S1" true = Ok Q.
Proof.
  split; [exact uniform_distribution|].
  exact (bayesian_update_commutes uniform "S1" "S1" true false
           uniform_distribution S1_in_catalog S1_in_catalog).
Defined.

(** ** Bounds on entropy and gain *)

Section Bounds.
Import data engine.

Lemma entry_le_sum (P : list R) (p : R) :
  Forall (Rle 0) P -> p ∈ P -> p <= py_sum P.
Proof.
  induction 1 as [|x P Hx HP IH]; intros Hp.
  - apply elem_of_nil in Hp. contradiction.
  - rewrite py_sum_cons. pose proof (py_sum_nonneg P HP).
    apply elem_of_cons in Hp as [-> | Hp]; [lra | specialize (IH Hp); lra].
Qed.

Lemma distribution_unit (P : list R) :
  is_distribution P -> Forall (fun p => 0 <= p <= 1) P.
Proof.
  intros (_ & Hpos & Hsum). apply Forall_forall. intros p Hp.
  split.
  - rewrite Forall_forall in Hpos. apply Hpos, Hp.
  - rewrite <- Hsum. apply entry_le_sum; assumption.
Qed.

Lemma plogp_unit (p : R) : 0 <= p <= 1 -> plogp p <= 0.
Proof.
  intros [H0 H1]. destruct (Rle_lt_or_eq_dec 0 p H0) as [Hpos | <-].
  - rewrite (plogp_pos p Hpos). pose proof (ln_le_pred p Hpos) as Hln.
    pose proof ln2_pos as H2.
    assert (Hq : ln p / ln 2 <= 0).
    { unfold Rdiv. replace 0 with (0 * / ln 2) by ring.
      apply Rmult_le_compat_r; [apply Rlt_le, Rinv_0_lt_compat; exact H2 | lra]. }
    nra.
  - rewrite (plogp_nonpos 0); lra.
Qed.

Lemma entropy_nonneg (P : list R) :
  Forall (fun p => 0 <= p <= 1) P -> 0 <= entropy P.
Proof.
  induction 1 as [|p P Hp _ IH].
  - unfold entropy. simpl. rewrite py_sum_nil. lra.
  - rewrite entropy_cons. pose proof (plogp_unit p Hp). lra.
Qed.

Lemma ln_eighth : ln (1 / 8) = - (3 * ln 2).
Proof.
  replace (1 / 8) with (/ 2 ^ 3) by (simpl; lra).
  rewrite ln_Rinv by (simpl; lra).
  rewrite ln_pow by lra. simpl INR. lra.
Qed.

Lemma plogp_lower (p : R) :
  0 <= p -> - plogp p <= 3 * p + (1 / 8 - p) / ln 2.
Proof.
  intros H0. pose proof ln2_pos as H2.
  assert (Hinv : 0 < / ln 2) by (apply Rinv_0_lt_compat; exact H2).
  destruct (Rle_lt_or_eq_dec 0 p H0) as [Hpos | <-].
  - rewrite (plogp_pos p Hpos).
    pose proof (gibbs_point p (1 / 8) Hpos ltac:(lra)) as G.
    rewrite ln_eighth in G.
    assert (E : - (p * ln p) <= 3 * p * ln 2 + (1 / 8 - p)) by lra.
    apply (Rmult_le_compat_r (/ ln 2)) in E; [|lra].
    replace (- (p * ln p) * / ln 2) with (- (p * (ln p / ln 2))) in E
      by (field; lra).
    replace ((3 * p * ln 2 + (1 / 8 - p)) * / ln 2)
      with (3 * p + (1 / 8 - p) / ln 2) in E by (field; lra).
    exact E.
  - rewrite (plogp_nonpos 0) by lra.
    replace (- 0) with 0 by ring.
    replace (3 * 0 + (1 / 8 - 0) / ln 2) with (1 / 8 * / ln 2) by (field; lra).
    apply Rlt_le, Rmult_lt_0_compat; lra.
Qed.

Lemma entropy_upper (P : list R) :
  Forall (Rle 0) P ->
  entropy P <= 3 * py_sum P + (INR (length P) / 8 - py_sum P) / ln 2.
Proof.
  pose proof ln2_pos as H2.
  induction 1 as [|p P Hp _ IH].
  - unfold entropy. simpl. rewrite py_sum_nil.
    replace (3 * 0 + (0 / 8 - 0) / ln 2) with 0 by (field; lra). lra.
  - rewrite entropy_cons, py_sum_cons. change (length (p :: P)) with (S (length P)).
    rewrite S_INR. pose proof (plogp_lower p Hp) as Hterm.
    replace (3 * (p + py_sum P)
             + ((INR (length P) + 1) / 8 - (p + py_sum P)) / ln 2)
      with ((3 * p + (1 / 8 - p) / ln 2)
            + (3 * py_sum P + (INR (length P) / 8 - py_sum P) / ln 2))
      by (field; lra).
    lra.
Qed.

Lemma entropy_range (P : list R) :
  is_distribution P -> 0 <= entropy P <= 3.
Proof.
  intros HP. split.
  - apply entropy_nonneg, distribution_unit, HP.
  - destruct HP as (Hlen & Hpos & Hsum).
    pose proof (entropy_upper P Hpos) as H. rewrite Hlen, Hsum in H.
    change NUM_DIAGNOSES with 8%nat in H. simpl INR in H.
    replace (3 * 1 + ((1 + 1 + 1 + 1 + 1 + 1 + 1 + 1) / 8 - 1) / ln 2)
      with 3 in H by (pose proof ln2_pos; field; lra).
    exact H.
Qed.

Lemma gain_le_entropy (P : list R) (s : string) :
  is_distribution P -> s ∈ catalog ->
  exists IG, calculate_information_gain P s = Ok IG /\ 0 <= IG <= entropy P.
Proof.
  intros HP Hs.
  destruct (calculate_information_gain_Ok P s HP Hs)
    as (Y & N & HY & HN & HIG & Hge).
  destruct (bayesian_update_posterior P s true HP Hs) as [HY' DY].
  destruct (bayesian_update_posterior P s false HP Hs) as [HN' DN].
  rewrite HY in HY'. injection HY' as ->.
  rewrite HN in HN'. injection HN' as ->.
  pose proof (entropy_range _ DY) as [EY _].
  pose proof (entropy_range _ DN) as [EN _].
  pose proof (unnormalized_pos P s true Hs HP) as Hy.
  pose proof (unnormalized_pos P s false Hs HP) as Hn.
  rewrite unnormalized_yes in Hy. rewrite (unnormalized_no P s HP) in Hn.
  eexists. split; [exact HIG|]. split; [exact Hge|].
  assert (0 <= P_yes P s * entropy (posterior P s true)) by (apply Rmult_le_pos; lra).
  assert (0 <= P_no P s * entropy (posterior P s false)) by (apply Rmult_le_pos; lra).
  lra.
Qed.

End Bounds.

(** X6: on a distribution [calculate_entropy] returns a number of bits
    between 0 and 3 = log2 8. *)
Theorem calculate_entropy_range :
  forall P : list R,
    is_distribution P ->
    exists H : R, engine.calculate_entropy P = Ok H /\ 0 <= H <= 3.
Proof.
  intros P HP. exists (entropy P).
  split; [apply calculate_entropy_Ok | apply entropy_range, HP].
Qed.

Lemma calculate_entropy_range_witness :
  is_distribution uniform
  /\ exists H : R, engine.calculate_entropy uniform = Ok H /\ 0 <= H <= 3.
Proof.
  split; [exact uniform_distribution|].
  exact (calculate_entropy_range uniform uniform_distribution).
Defined.

(** X7: the information gain of a catalog symptom on a distribution never
    exceeds the entropy of that distribution: a question cannot remove more
    uncertainty than there is. *)
Theorem information_gain_at_most_entropy :
  forall (P : list R) (s : string),
    is_distribution P ->
    s ∈ catalog ->
    exists H IG : R,
      engine.calculate_entropy P = Ok H
      /\ engine.calculate_information_gain P s = Ok IG
      /\ IG <= H.
Proof.
  intros P s HP Hs.
  destruct (gain_le_entropy P s HP Hs) as (IG & HIG & _ & Hle).
  exists (entropy P), IG.
  split; [apply calculate_entropy_Ok|]. split; [exact HIG | exact Hle].
Qed.

Lemma information_gain_at_most_entropy_witness :
  is_distribution uniform
  /\ exists H IG : R,
       engine.calculate_entropy uniform = Ok H
       /\ engine.calculate_information_gain uniform "S1" = Ok IG
       /\ IG <= H.
Proof.
  split; [exact uniform_distribution|].
  exact (information_gain_at_most_entropy uniform "S1"
           uniform_distribution S1_in_catalog).
Defined.

(** ** Certainty *)

Section Certainty.
Import data engine.

Lemma one_hot_distribution (i : nat) :
  (i < NUM_DIAGNOSES)%nat -> is_distribution (one_hot i).
Proof.
  intros Hi. change NUM_DIAGNOSES with 8%nat in Hi. unfold is_distribution, one_hot.
  do 8 (destruct i as [|i];
        [split; [reflexivity|]; split;
         [repeat constructor; lra
         | simpl; rewrite !py_sum_cons, py_sum_nil; lra]|]).
  lia.
Qed.

Lemma posterior_one_hot (i : nat) (s : string) (a : bool) :
  (i < NUM_DIAGNOSES)%nat -> s ∈ catalog ->
  posterior (one_hot i) s a = one_hot i.
Proof.
  intros Hi Hs. change NUM_DIAGNOSES with 8%nat in Hi.
  assert (HL : forall d, d ∈ DIAGNOSES -> 0 < likelihood s a d)
    by (intros d Hd; apply (likelihood_range s a d Hs Hd)).
  unfold posterior, unnormalized. revert HL.
  generalize (likelihood s a). intros w HL.
  assert (Hw : Forall (fun d => 0 < w d) DIAGNOSES)
    by (apply Forall_forall; exact HL).
  unfold DIAGNOSES in Hw |- *.
  repeat match goal with
         | H : Forall _ (_ :: _) |- _ => apply Forall_cons_1 in H as [? H]
         end.
  unfold one_hot.
  do 8 (destruct i as [|i];
        [simpl; rewrite !py_sum_cons, py_sum_nil;
         repeat (apply (f_equal2 cons); [field; lra|]); reflexivity|]).
  lia.
Qed.

Lemma bayesian_update_one_hot (i : nat) (s : string) (a : bool) :
  (i < NUM_DIAGNOSES)%nat -> s ∈ catalog ->
  bayesian_update (one_hot i) s a = Ok (one_hot i).
Proof.
  intros Hi Hs.
  destruct (bayesian_update_posterior (one_hot i) s a
              (one_hot_distribution i Hi) Hs) as [Hret _].
  rewrite Hret, (posterior_one_hot i s a Hi Hs). reflexivity.
Qed.

Lemma gain_one_hot (i : nat) (s : string) :
  (i < NUM_DIAGNOSES)%nat -> s ∈ catalog ->
  calculate_information_gain (one_hot i) s = Ok 0.
Proof.
  intros Hi Hs.
  destruct (gain_le_entropy (one_hot i) s (one_hot_distribution i Hi) Hs)
    as (IG & HIG & H0 & Hle).
  rewrite (entropy_one_hot i Hi) in Hle.
  rewrite HIG. f_equal. lra.
Qed.

End Certainty.

(** X8: certainty is absorbing.  With all mass on one diagnosis, either
    answer to any catalog symptom leaves the distribution as it is, and every
    symptom has information gain 0. *)
Theorem one_hot_is_fixed :
  forall (i : nat) (s : string) (answer_is_yes : bool),
    (i < 8)%nat ->
    s ∈ catalog ->
    engine.bayesian_update (one_hot i) s answer_is_yes = Ok (one_hot i)
    /\ engine.calculate_information_gain (one_hot i) s = Ok 0.
Proof.
  intros i s a Hi Hs. split.
  - apply bayesian_update_one_hot; assumption.
  - apply gain_one_hot; assumption.
Qed.

Lemma one_hot_is_fixed_witness :
  engine.bayesian_update (one_hot 2) "S1" false = Ok (one_hot 2)
  /\ engine.calculate_information_gain (one_hot 2) "S1" = Ok 0.
Proof.
  apply (one_hot_is_fixed 2 "S1" false); [lia | exact S1_in_catalog].
Defined.

(** X9: once the posterior is certain every gain is 0, so the strict
    comparison of the selection loop keeps the first candidate:
    [get_next_question] returns the first symptom of the catalog that has not
    been asked, with gain 0. *)
Theorem get_next_question_when_certain :
  forall (i : nat) (asked : gset string) (l1 l2 : list string) (k : string),
    (i < 8)%nat ->
    catalog = l1 ++ k :: l2 ->
    (forall x, x ∈ l1 -> x ∈ asked) ->
    (k ∉ asked) ->
    exists text,
      dict_get data.SYMPTOMS k = Ok text
      /\ engine.get_next_question (one_hot i) asked = Ok (Some text, Some k, 0).
Proof.
  intros i asked l1 l2 k Hi Hcat Hl1 Hk.
  assert (Hkc : k ∈ catalog) by (rewrite Hcat; apply elem_of_app; right; left).
  destruct (get_next_question_Ok (one_hot i) asked (one_hot_distribution i Hi))
    as (m1 & k' & m2 & text & Hcat' & Hk' & Htext & Hret & Hpre & Hpost).
  { exists k. split; assumption. }
  assert (Hg : forall x, x ∈ catalog -> gain (one_hot i) x = 0).
  { intros x Hx. unfold gain. rewrite (gain_one_hot i x Hi Hx). reflexivity. }
  assert (Hk'c : k' ∈ catalog) by (rewrite Hcat'; apply elem_of_app; right; left).
  assert (Hfirst : forall x, x ∈ m1 -> x ∈ asked).
  { intros x Hx. destruct (decide (x ∈ asked)) as [?|Hn]; [assumption|].
    pose proof (Hpre x Hx Hn) as Hlt.
    rewrite (Hg x), (Hg k' Hk'c) in Hlt; [lra|].
    rewrite Hcat'. apply elem_of_app. left. exact Hx. }
  assert (Heq : k' = k).
  { rewrite Hcat' in Hcat.
    destruct (Nat.lt_trichotomy (length m1) (length l1)) as [Hlt | [Hlen | Hgt]].
    - exfalso. apply Hk'. apply Hl1.
      assert (Hlook : (l1 ++ k :: l2) !! length m1 = Some k')
        by (rewrite <- Hcat; apply list_lookup_middle; reflexivity).
      rewrite lookup_app_l in Hlook by exact Hlt.
      eapply list_elem_of_lookup_2. exact Hlook.
    - assert (Hlook : (l1 ++ k :: l2) !! length m1 = Some k')
        by (rewrite <- Hcat; apply list_lookup_middle; reflexivity).
      rewrite (list_lookup_middle l1 l2 k (length m1) Hlen) in Hlook.
      injection Hlook as ->. reflexivity.
    - exfalso. apply Hk. apply Hfirst.
      assert (Hlook : (m1 ++ k' :: m2) !! length l1 = Some k)
        by (rewrite Hcat; apply list_lookup_middle; reflexivity).
      rewrite lookup_app_l in Hlook by exact Hgt.
      eapply list_elem_of_lookup_2. exact Hlook. }
  subst k'. exists text. split; [exact Htext|].
  rewrite Hret, (Hg k Hkc). reflexivity.
Qed.

Lemma get_next_question_when_certain_witness :
  exists text,
    dict_get data.SYMPTOMS "S1" = Ok text
    /\ engine.get_next_question (one_hot 0) ∅ = Ok (Some text, Some "S1", 0).
Proof.
  apply (get_next_question_when_certain 0 ∅ [] (drop 1 catalog) "S1").
  - lia.
  - reflexivity.
  - intros x Hx. apply elem_of_nil in Hx. contradiction.
  - apply not_elem_of_empty.
Defined.

(** * Properties of the callers *)

(** ** Maxima, positions and sorting *)

Section Primitives.

Lemma fold_max_spec (l : list R) (x : R) :
  let m := fold_left (fun m y => if Rlt_dec m y then y else m) l x in
  x <= m /\ (forall y, y ∈ l -> y <= m) /\ (m = x \/ m ∈ l).
Proof.
  revert x; induction l as [|y l IH]; intros x; simpl.
  - split; [lra|]. split; [|left; reflexivity].
    intros y Hy. apply elem_of_nil in Hy. contradiction.
  - destruct (Rlt_dec x y) as [Hlt | Hge].
    + destruct (IH y) as (H1 & H2 & H3). split; [lra|]. split.
      * intros z Hz. apply elem_of_cons in Hz as [-> | Hz]; [exact H1 | apply H2, Hz].
      * right. destruct H3 as [-> | H3]; [left | now right].
    + destruct (IH x) as (H1 & H2 & H3). split; [exact H1|]. split.
      * intros z Hz. apply elem_of_cons in Hz as [-> | Hz]; [lra | apply H2, Hz].
      * destruct H3 as [-> | H3]; [left; reflexivity | right; now right].
Qed.

Lemma py_max_spec (l : list R) :
  l <> [] ->
  exists m, py_max l = Ok m /\ m ∈ l /\ forall y, y ∈ l -> y <= m.
Proof.
  destruct l as [|x l]; intros Hne; [contradiction|].
  pose proof (fold_max_spec l x) as (H1 & H2 & H3).
  eexists. split; [reflexivity|]. split.
  - destruct H3 as [-> | H3]; [left | now right].
  - intros y Hy. apply elem_of_cons in Hy as [-> | Hy]; [exact H1 | apply H2, Hy].
Qed.

Lemma list_index_R_spec (l : list R) (x : R) :
  x ∈ l ->
  exists i, list_index_R l x = Ok i /\ l !! i = Some x
            /\ forall j, (j < i)%nat -> l !! j <> Some x.
Proof.
  induction l as [|y l IH]; intros Hx.
  - apply elem_of_nil in Hx. contradiction.
  - simpl. destruct (Req_dec_T y x) as [-> | Hne].
    + exists 0%nat. split; [reflexivity|]. split; [reflexivity|]. intros j Hj. lia.
    + apply elem_of_cons in Hx as [-> | Hx]; [contradiction|].
      destruct (IH Hx) as (i & Hi & Hl & Hfirst).
      exists (S i). rewrite Hi, bind_Ok. split; [reflexivity|]. split; [exact Hl|].
      intros [|j] Hj; simpl.
      * intros E. injection E as E. contradiction.
      * apply Hfirst. lia.
Qed.

Lemma sum_le_length_max (l : list R) (m : R) :
  (forall y, y ∈ l -> y <= m) -> py_sum l <= INR (length l) * m.
Proof.
  induction l as [|x l IH]; intros H.
  - simpl. rewrite py_sum_nil. lra.
  - rewrite py_sum_cons. change (length (x :: l)) with (S (length l)).
    rewrite S_INR. pose proof (H x ltac:(left)).
    assert (py_sum l <= INR (length l) * m)
      by (apply IH; intros y Hy; apply H; now right).
    lra.
Qed.

Context {A : Type} (key : A -> R).

Lemma insert_desc_perm (x : A) (l : list A) : insert_desc key x l ≡ₚ x :: l.
Proof.
  induction l as [|y l IH]; simpl; [reflexivity|].
  destruct (Rlt_dec (key x) (key y)); [|reflexivity].
  rewrite IH. apply Permutation_swap.
Qed.

Lemma sorted_desc_perm (l : list A) : sorted_desc key l ≡ₚ l.
Proof.
  induction l as [|x l IH]; simpl; [reflexivity|].
  rewrite insert_desc_perm. now constructor.
Qed.

Lemma insert_desc_sorted (x : A) (l : list A) :
  descending key l -> descending key (insert_desc key x l).
Proof.
  unfold descending.
  induction 1 as [|y l Hl IH Hy]; simpl.
  - repeat constructor.
  - destruct (Rlt_dec (key x) (key y)) as [Hlt | Hge].
    + constructor; [exact IH|].
      rewrite insert_desc_perm. constructor; [lra | exact Hy].
    + constructor; [constructor; assumption|].
      constructor; [lra|].
      eapply Forall_impl; [exact Hy|]. intros z Hz. simpl in Hz. lra.
Qed.

Lemma sorted_desc_sorted (l : list A) : descending key (sorted_desc key l).
Proof.
  induction l as [|x l IH]; simpl; [constructor | apply insert_desc_sorted, IH].
Qed.

(** The head of the sorted list is the first element of maximal key. *)
Lemma sorted_desc_head (l : list A) (h : A) (t : list A) :
  sorted_desc key l = h :: t ->
  exists l1 l2, l = l1 ++ h :: l2
                /\ (forall x, x ∈ l1 -> key x < key h)
                /\ (forall x, x ∈ l2 -> key x <= key h).
Proof.
  revert h t; induction l as [|x l IH]; intros h t Hs; simpl in Hs; [discriminate|].
  destruct (sorted_desc key l) as [|h' t'] eqn:E.
  - simpl in Hs. injection Hs as <- <-.
    assert (l = []) as -> by (apply Permutation_nil; rewrite <- E; apply sorted_desc_perm).
    exists [], []. split; [reflexivity|].
    split; intros y Hy; apply elem_of_nil in Hy; contradiction.
  - destruct (IH h' t' eq_refl) as (l1 & l2 & -> & Hpre & Hpost).
    simpl in Hs. destruct (Rlt_dec (key x) (key h')) as [Hlt | Hge].
    + injection Hs as <- _. exists (x :: l1), l2. split; [reflexivity|]. split.
      * intros y Hy. apply elem_of_cons in Hy as [-> | Hy]; [exact Hlt | apply Hpre, Hy].
      * exact Hpost.
    + injection Hs as <- _. exists [], (l1 ++ h' :: l2). split; [reflexivity|]. split.
      * intros y Hy. apply elem_of_nil in Hy. contradiction.
      * intros y Hy. apply elem_of_app in Hy as [Hy | Hy].
        -- pose proof (Hpre y Hy). lra.
        -- apply elem_of_cons in Hy as [-> | Hy]; [lra|].
           pose proof (Hpost y Hy). lra.
Qed.

End Primitives.

(** ** The catalog as a set, and loops *)

Section CatalogSet.

Lemma catalog_NoDup : NoDup catalog.
Proof. apply (bool_decide_unpack (NoDup catalog)). vm_compute. exact I. Qed.

Lemma catalog_length : length catalog = 36%nat.
Proof. reflexivity. Qed.

Lemma catalog_size : size (list_to_set catalog : gset string) = 36%nat.
Proof.
  rewrite size_list_to_set by exact catalog_NoDup. exact catalog_length.
Qed.

Lemma asked_size_le (asked : gset string) :
  (forall k, k ∈ asked -> k ∈ catalog) -> (size asked <= 36)%nat.
Proof.
  intros Hsub. rewrite <- catalog_size. apply subseteq_size.
  intros k Hk. apply elem_of_list_to_set, Hsub, Hk.
Qed.

Lemma unasked_exists (asked : gset string) :
  (size asked < 36)%nat -> exists k, k ∈ catalog /\ (k ∉ asked).
Proof.
  intros Hsize.
  destruct (decide (Forall (fun k => k ∈ asked) catalog)) as [Hall | Hnot].
  - exfalso. rewrite Forall_forall in Hall.
    assert (Hsub : (list_to_set catalog : gset string) ⊆ asked).
    { intros k Hk. apply Hall. apply elem_of_list_to_set in Hk. exact Hk. }
    apply subseteq_size in Hsub. rewrite catalog_size in Hsub. lia.
  - apply not_Forall_Exists in Hnot; [|intros k; apply _].
    apply Exists_exists in Hnot as (k & Hk & Hn). exists k. split; assumption.
Qed.

Lemma asked_add_size (asked : gset string) (k : string) :
  k ∉ asked -> size ({[ k ]} ∪ asked) = S (size asked).
Proof.
  intros Hk. rewrite size_union by set_solver. rewrite size_singleton. reflexivity.
Qed.

End CatalogSet.

Section While.

Context {St A : Type} (body : St -> result (St + A)).

Lemma while_more_fuel (fuel fuel' : nat) (st : St) (r : result A) :
  while fuel body st = Some r -> (fuel <= fuel')%nat ->
  while fuel' body st = Some r.
Proof.
  revert fuel' st; induction fuel as [|fuel IH]; intros fuel' st H Hle;
    [discriminate|].
  destruct fuel' as [|fuel']; [lia|]. simpl in *.
  destruct (body st) as [[st' | res] | e]; try exact H.
  apply IH; [exact H | lia].
Qed.

Lemma while_raise (fuel : nat) (st : St) (e : exn) :
  body st = Raise e -> while (S fuel) body st = Some (Raise e).
Proof. intros H. simpl. rewrite H. reflexivity. Qed.

(** Total correctness of a loop from an invariant and a decreasing measure. *)
Lemma while_total (Inv : St -> Prop) (Post : A -> Prop) (measure : St -> nat) :
  (forall st, Inv st ->
     match body st with
     | Ok (inl st') => Inv st' /\ (measure st' < measure st)%nat
     | Ok (inr r) => Post r
     | Raise _ => False
     end) ->
  forall fuel st, Inv st -> (measure st < fuel)%nat ->
  exists r, while fuel body st = Some (Ok r) /\ Post r.
Proof.
  intros Hbody fuel. induction fuel as [|fuel IH]; intros st Hinv Hm; [lia|].
  simpl. specialize (Hbody st Hinv).
  destruct (body st) as [[st' | r] | e]; [| |contradiction].
  - destruct Hbody as [Hinv' Hlt]. apply IH; [exact Hinv' | lia].
  - exists r. split; [reflexivity | exact Hbody].
Qed.

End While.

(** Two loops that move in step. *)
Lemma while_sim {S1 A1 S2 A2 : Type} (b1 : S1 -> result (S1 + A1))
    (b2 : S2 -> result (S2 + A2)) (Rs : S1 -> S2 -> Prop) (Ra : A1 -> A2 -> Prop) :
  (forall s1 s2, Rs s1 s2 ->
     match b1 s1, b2 s2 with
     | Ok (inl s1'), Ok (inl s2') => Rs s1' s2'
     | Ok (inr r1), Ok (inr r2) => Ra r1 r2
     | _, _ => False
     end) ->
  forall fuel s1 s2 r1 r2, Rs s1 s2 ->
    while fuel b1 s1 = Some (Ok r1) -> while fuel b2 s2 = Some (Ok r2) ->
    Ra r1 r2.
Proof.
  intros Hstep fuel. induction fuel as [|fuel IH]; intros s1 s2 r1 r2 HR H1 H2;
    [discriminate|].
  simpl in H1, H2. specialize (Hstep s1 s2 HR).
  destruct (b1 s1) as [[s1' | a1] | e1], (b2 s2) as [[s2' | a2] | e2];
    try contradiction.
  - exact (IH s1' s2' r1 r2 Hstep H1 H2).
  - injection H1 as <-. injection H2 as <-. exact Hstep.
Qed.

(** ** analysis.py: the questioning loops *)

Section IgLoop.
Import data engine analysis.

Lemma most_likely_answer_Ok (target k : string) :
  target ∈ DIAGNOSES -> k ∈ catalog -> exists b, most_likely_answer target k = Ok b.
Proof.
  intros Ht Hk. destruct (cpt_lookup target k Ht Hk) as (row & Hrow & Hc & _).
  unfold most_likely_answer. rewrite Hrow, bind_Ok, Hc, bind_Ok.
  eexists. reflexivity.
Qed.

Lemma most_likely_answer_KeyError (target k : string) :
  target ∉ DIAGNOSES -> most_likely_answer target k = Raise KeyError.
Proof.
  intros Ht. unfold most_likely_answer.
  rewrite dict_get_absent by exact Ht. reflexivity.
Qed.

Lemma distribution_nonempty (P : list R) : is_distribution P -> P <> [].
Proof. intros (Hlen & _) ->. discriminate. Qed.

Lemma asking_start : asking uniform ∅ 0.
Proof.
  split; [exact uniform_distribution|]. split; [|apply size_empty].
  intros k Hk. apply elem_of_empty in Hk. contradiction.
Qed.

Lemma asking_next (P : list R) (asked : gset string) (n : nat) (k : string)
    (a : bool) :
  asking P asked n -> k ∈ catalog -> k ∉ asked ->
  bayesian_update P k a = Ok (posterior P k a)
  /\ asking (posterior P k a) ({[ k ]} ∪ asked) (S n).
Proof.
  intros (HP & Hsub & Hsize) Hk Hn.
  destruct (bayesian_update_posterior P k a HP Hk) as [Hret HD].
  split; [exact Hret|]. split; [exact HD|]. split.
  - intros x Hx. apply elem_of_union in Hx as [Hx | Hx]; [|apply Hsub, Hx].
    apply elem_of_singleton in Hx as ->. exact Hk.
  - rewrite asked_add_size by exact Hn. rewrite Hsize. reflexivity.
Qed.

Lemma ig_body_step (target : string) (answers : gmap string bool)
    (P : list R) (asked : gset string) (n : nat) :
  target ∈ DIAGNOSES -> asking P asked n ->
  match ig_body target answers (P, asked, n) with
  | Ok (inl (P', asked', n')) =>
      asking P' asked' n' /\ n' = S n /\ (n < 36)%nat
  | Ok (inr st) =>
      st = (P, asked, n) /\ ((n < 36)%nat -> confident P)
  | Raise _ => False
  end.
Proof.
  intros Ht Hinv. pose proof Hinv as (HP & Hsub & Hsize).
  unfold ig_body.
  destruct (py_max_spec P (distribution_nonempty P HP)) as (m & Hm & _).
  rewrite Hm, bind_Ok.
  destruct (Rlt_dec m 0.90) as [Hlow | Hhigh].
  - case_bool_decide as Hroom.
    + change (length SYMPTOMS) with 36%nat in Hroom.
      destruct (get_next_question_Ok P asked HP (unasked_exists asked Hroom))
        as (l1 & k & l2 & text & Hcat & Hk & _ & Hret & _).
      assert (Hkc : k ∈ catalog)
        by (rewrite Hcat; apply elem_of_app; right; left).
      rewrite Hret, bind_Ok. cbv beta iota.
      destruct (most_likely_answer_Ok target k Ht Hkc) as (b & Hb).
      rewrite Hb, bind_Ok. cbv zeta.
      destruct (asking_next P asked n k (default b (answers !! k)) Hinv Hkc Hk)
        as [Hupd Hnext].
      rewrite Hupd, bind_Ok. split; [exact Hnext|]. split; [reflexivity | lia].
    + split; [reflexivity|]. intros Hn.
      change (length SYMPTOMS) with 36%nat in Hroom. lia.
  - split; [reflexivity|]. intros _. exists m. split; [exact Hm | lra].
Qed.

Lemma ig_loop_total (target : string) (answers : gmap string bool) :
  target ∈ DIAGNOSES ->
  exists P asked n,
    ig_loop 37 target answers = Some (Ok (P, asked, n))
    /\ asking P asked n /\ ((n < 36)%nat -> confident P).
Proof.
  intros Ht. unfold ig_loop.
  destruct (while_total (ig_body target answers)
              (fun st => asking (fst (fst st)) (snd (fst st)) (snd st))
              (fun st => asking (fst (fst st)) (snd (fst st)) (snd st)
                         /\ ((snd st < 36)%nat -> confident (fst (fst st))))
              (fun st => (36 - snd st)%nat)) with (fuel := 37%nat)
    (st := (uniform, (∅ : gset string), 0%nat)) as ([[P asked] n] & Hrun & Hpost).
  - intros [[P asked] n] Hinv. simpl in Hinv.
    pose proof (ig_body_step target answers P asked n Ht Hinv) as Hstep.
    destruct (ig_body target answers (P, asked, n)) as [[[[P' asked'] n'] | st] | e];
      [| |exact Hstep].
    + destruct Hstep as (Hinv' & -> & Hlt). simpl. split; [exact Hinv' | lia].
    + destruct Hstep as [-> Hconf]. simpl. split; assumption.
  - exact asking_start.
  - simpl. lia.
  - exists P, asked, n. split; [exact Hrun | exact Hpost].
Qed.

End IgLoop.

(** X10: for a target diagnosis of the catalog and any dict of answers,
    the loop of [simulate_ig_ordering] stops within 36 turns (any fuel above
    36 gives the same result): the count [n] returned is the number of
    distinct symptoms asked, at most 36, the posterior is still a
    distribution, and if fewer than 36 questions were asked the leading
    probability has reached 0.90. *)
Theorem simulate_ig_ordering_total :
  forall (target : string) (answers : gmap string bool),
    target ∈ data.DIAGNOSES ->
    exists (P : list R) (asked : gset string) (n : nat),
      (forall fuel, (36 < fuel)%nat ->
         analysis.ig_loop fuel target answers = Some (Ok (P, asked, n))
         /\ analysis.simulate_ig_ordering fuel target answers = Some (Ok n))
      /\ asking P asked n
      /\ (n <= 36)%nat
      /\ ((n < 36)%nat -> confident P).
Proof.
  intros target answers Ht.
  destruct (ig_loop_total target answers Ht) as (P & asked & n & Hrun & Hinv & Hconf).
  exists P, asked, n. split; [|split; [exact Hinv|split; [|exact Hconf]]].
  - intros fuel Hfuel.
    assert (Hf : analysis.ig_loop fuel target answers = Some (Ok (P, asked, n)))
      by (apply (while_more_fuel _ 37); [exact Hrun | lia]).
    split; [exact Hf|]. unfold analysis.simulate_ig_ordering. rewrite Hf. reflexivity.
  - destruct Hinv as (_ & Hsub & <-). apply asked_size_le, Hsub.
Qed.

Lemma Migraine_known : "Migraine" ∈ data.DIAGNOSES.
Proof. left. Qed.

Lemma simulate_ig_ordering_total_witness :
  exists n : nat,
    analysis.simulate_ig_ordering 37 "Migraine" ∅ = Some (Ok n) /\ (n <= 36)%nat.
Proof.
  destruct (simulate_ig_ordering_total "Migraine" ∅ Migraine_known)
    as (P & asked & n & Hrun & _ & Hle & _).
  exists n. split; [apply (Hrun 37%nat); lia | exact Hle].
Defined.

Section Orderings.
Import data engine analysis.

Lemma fold_max_replicate (n : nat) (x : R) :
  fold_left (fun m y => if Rlt_dec m y then y else m) (replicate n x) x = x.
Proof.
  induction n as [|n IH]; [reflexivity|].
  simpl. destruct (Rlt_dec x x); [lra | exact IH].
Qed.

Lemma uniform_max : py_max uniform = Ok PRIOR_PROBABILITY.
Proof.
  unfold uniform. change NUM_DIAGNOSES with 8%nat.
  change (replicate 8 PRIOR_PROBABILITY)
    with (PRIOR_PROBABILITY :: replicate 7 PRIOR_PROBABILITY).
  unfold py_max. rewrite fold_max_replicate. reflexivity.
Qed.

Lemma prior_low : PRIOR_PROBABILITY < 0.90.
Proof.
  unfold PRIOR_PROBABILITY. change NUM_DIAGNOSES with 8%nat. simpl. lra.
Qed.


Lemma ask_in_order_KeyError (target : string) (answers : gmap string bool)
    (order : list string) :
  target ∉ DIAGNOSES -> order <> [] ->
  ask_in_order target answers order uniform 0 = Raise KeyError.
Proof.
  intros Ht Hne. destruct order as [|k order]; [contradiction|].
  pose proof uniform_max as Hmax. revert Hmax. generalize uniform. intros P Hmax.
  simpl. rewrite Hmax, bind_Ok. pose proof prior_low.
  destruct (Rle_dec 0.90 PRIOR_PROBABILITY) as [Hhi | Hlo]; [lra|].
  rewrite (most_likely_answer_KeyError target k Ht). reflexivity.
Qed.

Lemma symptom_frequencies_Ok :
  mapM (fun symptom_key =>
          probs ← mapM (fun d => row ← dict_get CPT d; dict_get row symptom_key)
                    DIAGNOSES;
          avg_prob ← np_mean probs;
          Ok (symptom_key, avg_prob))
       (dict_keys SYMPTOMS)
  = Ok (map (fun k => (k, mean_cpt k)) catalog).
Proof.
  apply mapM_Ok. intros k Hk.
  rewrite (mapM_Ok _ (fun d => cpt d k)).
  - rewrite bind_Ok. reflexivity.
  - intros d Hd. destruct (cpt_lookup d k Hd Hk) as (row & Hrow & Hc & _).
    rewrite Hrow, bind_Ok. exact Hc.
Qed.

Lemma frequency_order :
  map fst (sorted_desc snd (map (fun k => (k, mean_cpt k)) catalog)) ≡ₚ catalog.
Proof.
  rewrite sorted_desc_perm, map_map.
  rewrite (map_ext _ (fun x => x)) by reflexivity.
  rewrite map_id. reflexivity.
Qed.


End Orderings.



Section Trace.
Import data engine analysis.

Lemma ig_body_unknown_target (target : string) (answers : gmap string bool) :
  target ∉ DIAGNOSES ->
  ig_body target answers (uniform, ∅, 0%nat) = Raise KeyError.
Proof.
  intros Ht. unfold ig_body. rewrite uniform_max, bind_Ok.
  pose proof prior_low.
  destruct (Rlt_dec PRIOR_PROBABILITY 0.90) as [_ | Hge]; [|lra].
  rewrite size_empty. rewrite bool_decide_true by (simpl; lia).
  destruct (get_next_question_Ok uniform ∅ uniform_distribution)
    as (l1 & k & l2 & text & _ & _ & _ & Hret & _).
  { exists "S1". split; [exact S1_in_catalog | apply not_elem_of_empty]. }
  rewrite Hret, bind_Ok. cbv beta iota.
  rewrite (most_likely_answer_KeyError target k Ht). reflexivity.
Qed.

Lemma trace_body_step (target : string) (answers : gmap string bool)
    (P : list R) (asked : gset string) (n : nat) (path : list path_row)
    (qn : nat) :
  target ∈ DIAGNOSES \/ (forall k, k ∈ catalog -> is_Some (answers !! k)) ->
  asking P asked n ->
  match trace_body target answers (P, asked, path, qn) with
  | Ok (inl (P', asked', path', qn')) =>
      exists (k text : string) (b : bool) (g h : R),
        k ∈ catalog /\ (k ∉ asked)
        /\ asking P' asked' (S n) /\ asked' = {[ k ]} ∪ asked
        /\ path' = path ++ [(qn, Some k, text,
                             Some (if b then "Yes" else "No"), Some g, h)]
        /\ qn' = S qn
        /\ dict_get SYMPTOMS k = Ok text
        /\ (forall b', answers !! k = Some b' -> b' = b)
        /\ 0 <= g /\ 0 <= h <= 3 /\ (n < 36)%nat
  | Ok (inr path') => path' = path
  | Raise _ => False
  end.
Proof.
  intros Hans Hinv. pose proof Hinv as (HP & Hsub & Hsize).
  unfold trace_body.
  destruct (py_max_spec P (distribution_nonempty P HP)) as (m & Hm & _).
  rewrite Hm, bind_Ok.
  destruct (Rlt_dec m 0.90) as [Hlow | Hhigh]; [|reflexivity].
  case_bool_decide as Hroom; [|reflexivity].
  change (length SYMPTOMS) with 36%nat in Hroom.
  destruct (get_next_question_Ok P asked HP (unasked_exists asked Hroom))
    as (l1 & k & l2 & text & Hcat & Hk & Htext & Hret & _).
  assert (Hkc : k ∈ catalog) by (rewrite Hcat; apply elem_of_app; right; left).
  rewrite Hret, bind_Ok. cbv beta iota.
  assert (Hb : exists b,
             match answers !! k with
             | Some a => Ok a
             | None => most_likely_answer target k
             end = Ok b
             /\ forall b', answers !! k = Some b' -> b' = b).
  { destruct (answers !! k) as [a|] eqn:Ea.
    - exists a. split; [reflexivity|]. intros b' E. injection E as <-. reflexivity.
    - destruct Hans as [Ht | Hall].
      + destruct (most_likely_answer_Ok target k Ht Hkc) as (b & Hb).
        exists b. split; [exact Hb | discriminate].
      + destruct (Hall k Hkc) as [a Ha]. rewrite Ha in Ea. discriminate. }
  destruct Hb as (b & Hb & Hsupplied). rewrite Hb, bind_Ok.
  destruct (asking_next P asked n k b Hinv Hkc Hk) as [Hupd Hnext].
  rewrite Hupd, bind_Ok. cbv zeta.
  rewrite calculate_entropy_Ok, bind_Ok, Htext, bind_Ok.
  destruct (gain_Ok P k HP Hkc) as [_ Hg].
  exists k, text, b, (gain P k), (entropy (posterior P k b)).
  repeat (split; [first [assumption | reflexivity]|]).
  split; [apply entropy_range; destruct Hnext as [? _]; assumption | lia].
Qed.

End Trace.

Section TraceLoop.
Import data engine analysis.

Variables (target : string) (answers : gmap string bool).

Lemma trace_inv_start :
  trace_inv answers (uniform, ∅, [(0%nat, None, "Initial state", None, None, 3)], 1%nat).
Proof.
  exists 0%nat. split; [exact asking_start|]. split; [reflexivity|].
  split; [reflexivity|]. split.
  - split; [reflexivity|]. split.
    + intros i row H. destruct i; discriminate.
    + simpl. apply NoDup_singleton.
  - intros row k Hrow Hk. apply list_elem_of_singleton in Hrow as ->. discriminate.
Qed.

Lemma trace_inv_step (st : list R * gset string * list path_row * nat) :
  target ∈ DIAGNOSES \/ (forall k, k ∈ catalog -> is_Some (answers !! k)) ->
  trace_inv answers st ->
  match trace_body target answers st with
  | Ok (inl st') => trace_inv answers st' /\ (37 - snd st' < 37 - snd st)%nat
  | Ok (inr path) =>
      well_formed_path answers path /\ (1 <= length path <= 37)%nat
  | Raise _ => False
  end.
Proof.
  intros Hans. destruct st as [[[P asked] path] qn].
  intros (n & Hinv & -> & Hlen & Hwf & Hkeys).
  pose proof (trace_body_step target answers P asked n path (S n) Hans Hinv) as Hstep.
  destruct (trace_body target answers (P, asked, path, S n))
    as [[[[[P' asked'] path'] qn'] | path'] | e]; [| |exact Hstep].
  - destruct Hstep as (k & text & b & g & h & Hkc & Hk & Hinv' & -> & -> & ->
                       & Htext & Hsup & Hg & Hh & Hn).
    unfold path_row in *.
    split; [|simpl; lia].
    exists (S n). split; [exact Hinv'|]. split; [reflexivity|].
    split; [rewrite length_app, Hlen; simpl; lia|].
    destruct Hwf as (H0 & Hrows & Hnodup). split; [split; [|split]|].
    + rewrite lookup_app_l by (eapply lookup_lt_Some, H0). exact H0.
    + intros i row Hrow. apply lookup_app_Some in Hrow as [Hrow | [Hge Hrow]].
      * apply Hrows, Hrow.
      * unfold path_row in *. rewrite Hlen in Hge, Hrow.
        destruct (S i - S n)%nat as [|j] eqn:E; [|destruct j; discriminate].
        simpl in Hrow. injection Hrow as <-.
        assert (i = n) as -> by lia.
        exists k, text, b, g, h. repeat (split; [first [assumption | reflexivity]|]).
        exact Hh.
    + rewrite map_app. apply NoDup_app. split; [exact Hnodup|]. split.
      * intros x Hx Hx'. simpl in Hx'. apply list_elem_of_singleton in Hx' as ->.
        apply list_elem_of_fmap in Hx as (row & Hrk & Hrow).
        apply Hk. apply (Hkeys row k Hrow). symmetry. exact Hrk.
      * simpl. apply NoDup_singleton.
    + intros row k' Hrow Hk'. apply elem_of_app in Hrow as [Hrow | Hrow].
      * apply elem_of_union. right. apply (Hkeys row k' Hrow Hk').
      * apply list_elem_of_singleton in Hrow as ->. simpl in Hk'.
        injection Hk' as <-. apply elem_of_union. left. apply elem_of_singleton.
        reflexivity.
  - subst path'. unfold path_row in *. split; [exact Hwf|]. rewrite Hlen.
    destruct Hinv as (_ & Hsub & Hsize). pose proof (asked_size_le asked Hsub). lia.
Qed.

Lemma trace_total :
  target ∈ DIAGNOSES \/ (forall k, k ∈ catalog -> is_Some (answers !! k)) ->
  exists path,
    trace_diagnostic_path 37 target answers = Some (Ok path)
    /\ well_formed_path answers path /\ (1 <= length path <= 37)%nat.
Proof.
  intros Hans. unfold trace_diagnostic_path.
  fold uniform. rewrite calculate_entropy_Ok, entropy_uniform.
  apply (while_total (trace_body target answers) (trace_inv answers)
           (fun path => well_formed_path answers path
                        /\ (1 <= length path <= 37)%nat)
           (fun st => (37 - snd st)%nat)).
  - intros st Hst. apply trace_inv_step; assumption.
  - exact trace_inv_start.
  - simpl. lia.
Qed.

(** The two loops make the same moves. *)
Lemma trace_ig_sim (P : list R) (asked : gset string) (n : nat)
    (path : list path_row) (qn : nat) :
  target ∈ DIAGNOSES -> asking P asked n -> length path = S n ->
  match trace_body target answers (P, asked, path, qn),
        ig_body target answers (P, asked, n) with
  | Ok (inl (P1, asked1, path1, _)), Ok (inl (P2, asked2, n2)) =>
      P1 = P2 /\ asked1 = asked2 /\ asking P2 asked2 n2 /\ length path1 = S n2
  | Ok (inr path1), Ok (inr (_, _, n2)) => length path1 = S n2
  | _, _ => False
  end.
Proof.
  intros Ht Hinv Hlen. pose proof Hinv as (HP & Hsub & Hsize).
  unfold trace_body, ig_body.
  destruct (py_max_spec P (distribution_nonempty P HP)) as (m & Hm & _).
  rewrite Hm, !bind_Ok.
  destruct (Rlt_dec m 0.90) as [Hlow | Hhigh]; [|exact Hlen].
  case_bool_decide as Hroom; [|exact Hlen].
  change (length SYMPTOMS) with 36%nat in Hroom.
  destruct (get_next_question_Ok P asked HP (unasked_exists asked Hroom))
    as (l1 & k & l2 & text & Hcat & Hk & Htext & Hret & _).
  assert (Hkc : k ∈ catalog) by (rewrite Hcat; apply elem_of_app; right; left).
  rewrite Hret, !bind_Ok. cbv beta iota.
  destruct (most_likely_answer_Ok target k Ht Hkc) as (b0 & Hb0).
  rewrite Hb0, !bind_Ok. cbv zeta.
  assert (Hans : match answers !! k with
                 | Some a => Ok a
                 | None => Ok b0
                 end = Ok (default b0 (answers !! k)))
    by (destruct (answers !! k); reflexivity).
  rewrite Hans, bind_Ok.
  destruct (asking_next P asked n k (default b0 (answers !! k)) Hinv Hkc Hk)
    as [Hupd Hnext].
  rewrite Hupd, !bind_Ok, calculate_entropy_Ok, bind_Ok, Htext, bind_Ok.
  split; [reflexivity|]. split; [reflexivity|]. split; [exact Hnext|].
  rewrite length_app, Hlen. simpl. lia.
Qed.

End TraceLoop.

Lemma Flu_unknown : "Flu" ∉ data.DIAGNOSES.
Proof.
  intros H. cbn in H.
  repeat (apply elem_of_cons in H as [H | H]; [discriminate|]).
  apply elem_of_nil in H. exact H.
Qed.

Lemma all_yes_total : forall k, k ∈ catalog -> is_Some (all_yes !! k).
Proof.
  intros k Hk. exists true. apply lookup_gset_to_gmap_Some.
  split; [|reflexivity]. apply elem_of_list_to_set. exact Hk.
Qed.

(** X12: [simulate_ig_ordering] and [simulate_frequency_based_ordering]
    evaluate the default answer CPT[target][key] > 0.5 before looking into
    the dict of answers, so a target diagnosis that is not in the CPT raises
    KeyError at the first question, whatever answers are supplied. *)
Theorem unknown_target_raises_KeyError :
  forall (target : string) (answers : gmap string bool) (fuel : nat),
    target ∉ data.DIAGNOSES ->
    (0 < fuel)%nat ->
    analysis.simulate_ig_ordering fuel target answers = Some (Raise KeyError)
    /\ analysis.simulate_frequency_based_ordering target answers = Raise KeyError.
Proof.
  intros target answers fuel Ht Hfuel. split.
  - destruct fuel as [|fuel]; [lia|]. unfold analysis.simulate_ig_ordering.
    replace (analysis.ig_loop (S fuel) target answers)
      with (Some (Raise KeyError : result (list R * gset string * nat)));
      [reflexivity|].
    symmetry. apply while_raise, ig_body_unknown_target, Ht.
  - unfold analysis.simulate_frequency_based_ordering.
    rewrite symptom_frequencies_Ok, bind_Ok. fold uniform.
    apply ask_in_order_KeyError; [exact Ht|].
    intros E. pose proof frequency_order as Hperm. cbv zeta in E.
    rewrite E in Hperm. apply Permutation_nil in Hperm. discriminate.
Qed.

Lemma unknown_target_raises_KeyError_witness :
  ("Flu" ∉ data.DIAGNOSES)
  /\ analysis.simulate_ig_ordering 37 "Flu" all_yes = Some (Raise KeyError)
  /\ analysis.simulate_frequency_based_ordering "Flu" all_yes = Raise KeyError.
Proof.
  split; [exact Flu_unknown|].
  apply (unknown_target_raises_KeyError "Flu" all_yes 37 Flu_unknown). lia.
Defined.

(** X13: [trace_diagnostic_path] reads the CPT row of the target only for
    a symptom the dict of answers does not hold.  If the target is a
    diagnosis of the catalog, or the dict answers every symptom (the target
    may then be any string), the loop stops within 36 turns and returns a
    path of 1 to 37 rows: the initial row with entropy 3, then rows numbered
    from 1, each with a catalog symptom, its text, the answer as "Yes" or
    "No" (the supplied one where there is one), a gain >= 0 and an entropy
    between 0 and 3; no symptom occurs twice. *)
Theorem trace_diagnostic_path_well_formed :
  forall (target : string) (answers : gmap string bool),
    target ∈ data.DIAGNOSES \/ (forall k, k ∈ catalog -> is_Some (answers !! k)) ->
    exists path : list analysis.path_row,
      (forall fuel, (36 < fuel)%nat ->
         analysis.trace_diagnostic_path fuel target answers = Some (Ok path))
      /\ well_formed_path answers path
      /\ (1 <= length path <= 37)%nat.
Proof.
  intros target answers Hans.
  destruct (trace_total target answers Hans) as (path & Hrun & Hwf & Hlen).
  exists path. split; [|split; assumption].
  intros fuel Hfuel. unfold analysis.trace_diagnostic_path in *.
  destruct (engine.calculate_entropy _) as [h|e]; [|exact Hrun].
  apply (while_more_fuel _ 37); [exact Hrun | lia].
Qed.

Lemma trace_diagnostic_path_well_formed_witness :
  (forall k, k ∈ catalog -> is_Some (all_yes !! k))
  /\ exists path : list analysis.path_row,
       analysis.trace_diagnostic_path 37 "Flu" all_yes = Some (Ok path)
       /\ well_formed_path all_yes path.
Proof.
  split; [exact all_yes_total|].
  destruct (trace_diagnostic_path_well_formed "Flu" all_yes (or_intror all_yes_total))
    as (path & Hrun & Hwf & _).
  exists path. split; [apply Hrun; lia | exact Hwf].
Defined.

(** X14: for a target diagnosis of the catalog, [trace_diagnostic_path]
    and [simulate_ig_ordering] ask the same questions: the path has exactly
    one row (the initial one) more than the count. *)
Theorem trace_length_is_count_plus_one :
  forall (target : string) (answers : gmap string bool),
    target ∈ data.DIAGNOSES ->
    exists (path : list analysis.path_row) (n : nat),
      analysis.trace_diagnostic_path 37 target answers = Some (Ok path)
      /\ analysis.simulate_ig_ordering 37 target answers = Some (Ok n)
      /\ length path = S n.
Proof.
  intros target answers Ht.
  destruct (trace_total target answers (or_introl Ht)) as (path & Hrun & _ & _).
  destruct (ig_loop_total target answers Ht) as (P & asked & n & Hig & _ & _).
  exists path, n. split; [exact Hrun|]. split.
  - unfold analysis.simulate_ig_ordering. rewrite Hig. reflexivity.
  - unfold analysis.trace_diagnostic_path in Hrun. fold uniform in Hrun.
    rewrite calculate_entropy_Ok in Hrun. unfold analysis.ig_loop in Hig.
    fold uniform in Hig.
    refine (while_sim (analysis.trace_body target answers)
              (analysis.ig_body target answers)
              (fun s1 s2 =>
                 fst (fst (fst s1)) = fst (fst s2)
                 /\ snd (fst (fst s1)) = snd (fst s2)
                 /\ asking (fst (fst s2)) (snd (fst s2)) (snd s2)
                 /\ length (snd (fst s1)) = S (snd s2))
              (fun path st => length path = S (snd st))
              _ 37%nat
              (uniform, ∅, [(0%nat, None, "Initial state", None, None, entropy uniform)],
               1%nat)
              (uniform, ∅, 0%nat) path (P, asked, n) _ Hrun Hig).
    + intros [[[P1 asked1] path1] qn1] [[P2 asked2] n2]. cbn [fst snd].
      intros (-> & -> & Hinv & Hlen).
      pose proof (trace_ig_sim target answers P2 asked2 n2 path1 qn1 Ht Hinv Hlen)
        as Hsim.
      destruct (analysis.trace_body target answers (P2, asked2, path1, qn1))
        as [[[[[P1' asked1'] path1'] qn1'] | p1] | e1];
        destruct (analysis.ig_body target answers (P2, asked2, n2))
        as [[[[P2' asked2'] n2'] | [[P2' asked2'] n2']] | e2];
        try contradiction; cbn [fst snd]; exact Hsim.
    + cbn [fst snd]. split; [reflexivity|]. split; [reflexivity|].
      split; [exact asking_start | reflexivity].
Qed.

Lemma trace_length_is_count_plus_one_witness :
  exists (path : list analysis.path_row) (n : nat),
    analysis.trace_diagnostic_path 37 "Migraine" ∅ = Some (Ok path)
    /\ analysis.simulate_ig_ordering 37 "Migraine" ∅ = Some (Ok n)
    /\ length path = S n.
Proof.
  exact (trace_length_is_count_plus_one "Migraine" ∅ Migraine_known).
Defined.

(** ** analysis.py: the ranking of the symptoms *)

Section Ranking.
Import data engine analysis.

Lemma first_max_unique {T : Type} (G : T -> R) (a1 a2 b1 b2 : list T) (x y : T) :
  a1 ++ x :: a2 = b1 ++ y :: b2 ->
  (forall z, z ∈ a1 -> G z < G x) -> (forall z, z ∈ a2 -> G z <= G x) ->
  (forall z, z ∈ b1 -> G z < G y) -> (forall z, z ∈ b2 -> G z <= G y) ->
  x = y.
Proof.
  intros E Ha1 Ha2 Hb1 Hb2.
  assert (Hx : (a1 ++ x :: a2) !! length a1 = Some x)
    by (apply list_lookup_middle; reflexivity).
  assert (Hy : (b1 ++ y :: b2) !! length b1 = Some y)
    by (apply list_lookup_middle; reflexivity).
  destruct (Nat.lt_trichotomy (length a1) (length b1)) as [Hlt | [Hlen | Hgt]].
  - exfalso. rewrite E in Hx. rewrite lookup_app_l in Hx by exact Hlt.
    pose proof (Hb1 x (list_elem_of_lookup_2 _ _ _ Hx)) as H1.
    rewrite <- E in Hy. rewrite lookup_app_r in Hy by lia.
    destruct (length b1 - length a1)%nat as [|j] eqn:Ej; [lia|]. simpl in Hy.
    pose proof (Ha2 y (list_elem_of_lookup_2 _ _ _ Hy)) as H2. lra.
  - rewrite E, Hlen, Hy in Hx. injection Hx as ->. reflexivity.
  - exfalso. rewrite <- E in Hy. rewrite lookup_app_l in Hy by exact Hgt.
    pose proof (Ha1 y (list_elem_of_lookup_2 _ _ _ Hy)) as H1.
    rewrite E in Hx. rewrite lookup_app_r in Hx by lia.
    destruct (length a1 - length b1)%nat as [|j] eqn:Ej; [lia|]. simpl in Hx.
    pose proof (Hb2 x (list_elem_of_lookup_2 _ _ _ Hx)) as H2. lra.
Qed.

Lemma text_of_Ok (k : string) : k ∈ catalog -> dict_get SYMPTOMS k = Ok (text_of k).
Proof.
  intros Hk. destruct (dict_get_keys SYMPTOMS k Hk) as (text & Ht).
  unfold text_of. rewrite Ht. reflexivity.
Qed.

Lemma mi_results_Ok :
  mapM (fun symptom_key =>
          mi ← calculate_information_gain uniform symptom_key;
          text ← dict_get SYMPTOMS symptom_key;
          Ok (symptom_key, text, mi))
       (dict_keys SYMPTOMS)
  = Ok (map (fun k => (k, text_of k, gain uniform k)) catalog).
Proof.
  apply mapM_Ok. intros k Hk.
  destruct (gain_Ok uniform k uniform_distribution Hk) as [Hg _].
  rewrite Hg, bind_Ok, (text_of_Ok k Hk), bind_Ok. reflexivity.
Qed.

Lemma ranking_Ok :
  compute_mutual_information_all_symptoms
  = Ok (sorted_desc (fun x => snd x)
          (map (fun k => (k, text_of k, gain uniform k)) catalog)).
Proof.
  unfold compute_mutual_information_all_symptoms. fold uniform. cbv zeta.
  rewrite mi_results_Ok, bind_Ok. reflexivity.
Qed.

End Ranking.

(** X15: [compute_mutual_information_all_symptoms] returns the 36
    symptoms of the catalog, each once, with its question text and its
    information gain on the uniform prior (between 0 and 3 bits), sorted by
    gain, largest first. *)
Theorem mutual_information_ranking :
  exists ranking : list (string * string * R),
    analysis.compute_mutual_information_all_symptoms = Ok ranking
    /\ map (fun x => fst (fst x)) ranking ≡ₚ catalog
    /\ descending (fun x => snd x) ranking
    /\ forall k text mi, (k, text, mi) ∈ ranking ->
         dict_get data.SYMPTOMS k = Ok text
         /\ engine.calculate_information_gain uniform k = Ok mi
         /\ 0 <= mi <= 3.
Proof.
  eexists. split; [exact ranking_Ok|]. split; [|split].
  - rewrite sorted_desc_perm, map_map.
    rewrite (map_ext _ (fun x => x)) by reflexivity.
    rewrite map_id. reflexivity.
  - apply sorted_desc_sorted.
  - intros k text mi Hin. rewrite sorted_desc_perm in Hin.
    apply list_elem_of_fmap in Hin as (k' & E & Hk). injection E as -> -> ->.
    split; [apply text_of_Ok, Hk|].
    destruct (gain_Ok uniform k' uniform_distribution Hk) as [Hg Hge].
    split; [exact Hg|]. split; [exact Hge|].
    destruct (gain_le_entropy uniform k' uniform_distribution Hk) as (IG & HIG & _ & Hle).
    rewrite Hg in HIG. injection HIG as <-. rewrite entropy_uniform in Hle. exact Hle.
Qed.

(** X16: the symptom ranked first by
    [compute_mutual_information_all_symptoms] is the first question
    [get_next_question] asks on the uniform prior with nothing asked, with
    the same text and gain: the stable descending sort and the strict
    comparison of the selection loop break ties the same way. *)
Theorem ranking_head_is_first_question :
  exists (k text : string) (g : R) (rest : list (string * string * R)),
    analysis.compute_mutual_information_all_symptoms = Ok ((k, text, g) :: rest)
    /\ engine.get_next_question uniform ∅ = Ok (Some text, Some k, g).
Proof.
  destruct (get_next_question_Ok uniform ∅ uniform_distribution)
    as (l1 & k & l2 & text & Hcat & _ & Htext & Hret & Hpre & Hpost).
  { exists "S1". split; [exact S1_in_catalog | apply not_elem_of_empty]. }
  assert (Hkc : k ∈ catalog) by (rewrite Hcat; apply elem_of_app; right; left).
  set (f := fun k => (k, text_of k, gain uniform k)).
  set (key := fun x : string * string * R => snd x).
  destruct (sorted_desc key (map f catalog)) as [|h t] eqn:E.
  - exfalso. pose proof (sorted_desc_perm key (map f catalog)) as Hperm.
    rewrite E in Hperm. apply Permutation_nil in Hperm.
    rewrite Hcat, map_app in Hperm. destruct (map f l1); discriminate.
  - destruct (sorted_desc_head key (map f catalog) h t E)
      as (m1 & m2 & Hsplit & Hm1 & Hm2).
    change (map f catalog) with (f <$> catalog) in Hsplit.
    apply fmap_app_inv in Hsplit as (c1 & c2' & -> & Hc2 & Hcat').
    symmetry in Hc2. apply fmap_cons_inv in Hc2 as (k' & c2 & -> & -> & ->).
    assert (k' = k) as ->.
    { apply (first_max_unique (gain uniform) c1 c2 l1 l2).
      - rewrite <- Hcat', <- Hcat. reflexivity.
      - intros z Hz. apply (Hm1 (f z)). apply list_elem_of_fmap. exists z. split; [reflexivity | exact Hz].
      - intros z Hz. apply (Hm2 (f z)). apply list_elem_of_fmap. exists z. split; [reflexivity | exact Hz].
      - intros z Hz. apply Hpre; [exact Hz | apply not_elem_of_empty].
      - intros z Hz. apply Hpost; [exact Hz | apply not_elem_of_empty]. }
    exists k, text, (gain uniform k), t. split; [|exact Hret].
    rewrite ranking_Ok. fold f key. rewrite E. unfold f.
    rewrite (text_of_Ok k Hkc) in Htext. injection Htext as <-. reflexivity.
Qed.

(** ** streamlit_app.py: the session *)

Section Session.
Import data engine streamlit_app.

Lemma leading_Ok (P : list R) :
  is_distribution P ->
  exists (m : R) (i : nat) (d : string),
    py_max P = Ok m /\ list_index_R P m = Ok i /\ list_get DIAGNOSES i = Ok d
    /\ P !! i = Some m /\ DIAGNOSES !! i = Some d
    /\ (forall p, p ∈ P -> p <= m)
    /\ (forall j, (j < i)%nat -> P !! j <> Some m)
    /\ 1 / 8 <= m <= 1.
Proof.
  intros HP. pose proof HP as (Hlen & Hpos & Hsum).
  destruct (py_max_spec P (distribution_nonempty P HP)) as (m & Hm & Hin & Hmax).
  destruct (list_index_R_spec P m Hin) as (i & Hi & Hlook & Hfirst).
  assert (Hlt : (i < length DIAGNOSES)%nat).
  { apply lookup_lt_Some in Hlook. rewrite Hlen in Hlook. exact Hlook. }
  destruct (lookup_lt_is_Some_2 DIAGNOSES i Hlt) as [d Hd].
  exists m, i, d. split; [exact Hm|]. split; [exact Hi|].
  split; [apply list_get_Ok, Hd|]. split; [exact Hlook|]. split; [exact Hd|].
  split; [exact Hmax|]. split; [exact Hfirst|]. split.
  - pose proof (sum_le_length_max P m Hmax) as H.
    rewrite Hsum, Hlen in H. change NUM_DIAGNOSES with 8%nat in H.
    simpl INR in H. lra.
  - pose proof (distribution_unit P HP) as Hunit.
    rewrite Forall_forall in Hunit. apply Hunit, Hin.
Qed.

Lemma init_session_ok : session_ok init_session.
Proof.
  unfold session_ok.
  change (current_P init_session) with uniform.
  change (asked_symptoms init_session) with (∅ : gset string).
  change (question_count init_session) with 0%nat.
  change (answers_history init_session) with (@nil answer_entry).
  change (entropy_history init_session) with [3.0].
  split; [exact asking_start|]. split; [reflexivity|]. split; [reflexivity|].
  split; [|split; [|split; [|split]]].
  - rewrite entropy_uniform. simpl. f_equal. lra.
  - repeat constructor; lra.
  - constructor.
  - intros k. split; intros H.
    + apply elem_of_empty in H. contradiction.
    + apply elem_of_nil in H. contradiction.
  - constructor.
Qed.

Lemma all_asked_when_full (asked : gset string) :
  (forall k, k ∈ asked -> k ∈ catalog) -> (36 <= size asked)%nat ->
  forall k, k ∈ catalog -> k ∈ asked.
Proof.
  intros Hsub Hsize k Hk.
  destruct (decide (k ∈ asked)) as [?|Hn]; [assumption|exfalso].
  assert (Hsub' : {[ k ]} ∪ asked ⊆ (list_to_set catalog : gset string)).
  { intros x Hx. apply elem_of_list_to_set.
    apply elem_of_union in Hx as [Hx | Hx]; [|apply Hsub, Hx].
    apply elem_of_singleton in Hx as ->. exact Hk. }
  apply subseteq_size in Hsub'.
  rewrite asked_add_size in Hsub' by exact Hn. rewrite catalog_size in Hsub'. lia.
Qed.

Lemma last_snoc_R (l : list R) (x : R) : last (l ++ [x]) = Some x.
Proof. apply last_snoc. Qed.

Lemma click_step (s : session) (b : bool) :
  session_ok s ->
  exists s', click s b = Ok s' /\ session_ok s'
             /\ question_count s' = Nat.min (S (question_count s)) 36.
Proof.
  intros Hok. pose proof Hok as (Hask & Hlen & HlenH & Hlast & HH & Hnd & Hkeys & Hent).
  pose proof Hask as (HP & Hsub & Hsize).
  destruct (leading_Ok (current_P s) HP) as (m & i & d & Hm & Hi & Hd & _).
  unfold click, leading_diagnosis.
  rewrite Hm, bind_Ok, Hi, bind_Ok, Hd, !bind_Ok, calculate_entropy_Ok, bind_Ok.
  pose proof (asked_size_le _ Hsub) as Hle.
  destruct (Nat.lt_ge_cases (size (asked_symptoms s)) 36) as [Hroom | Hfull].
  - destruct (get_next_question_Ok (current_P s) (asked_symptoms s) HP
                (unasked_exists _ Hroom))
      as (l1 & k & l2 & text & Hcat & Hk & Htext & Hret & _).
    assert (Hkc : k ∈ catalog) by (rewrite Hcat; apply elem_of_app; right; left).
    rewrite Hret, bind_Ok. cbv beta iota. unfold on_answer.
    destruct (asking_next _ _ _ k b Hask Hkc Hk) as [Hupd Hnext].
    rewrite Hupd, bind_Ok, calculate_entropy_Ok, bind_Ok.
    eexists. split; [reflexivity|]. split.
    + unfold session_ok.
      cbn [current_P asked_symptoms entropy_history question_count answers_history].
      split; [exact Hnext|]. split; [rewrite length_app, Hlen; simpl; lia|].
      split; [rewrite length_app, HlenH; simpl; lia|].
      split; [apply last_snoc_R|].
      split; [apply Forall_app; split; [exact HH|]; constructor; [|constructor];
              apply entropy_range; destruct Hnext as [? _]; assumption|].
      split; [|split].
      * rewrite map_app. apply NoDup_app. split; [exact Hnd|]. split.
        -- intros x Hx Hx'. simpl in Hx'. apply list_elem_of_singleton in Hx' as ->.
           apply Hk, Hkeys, Hx.
        -- simpl. apply NoDup_singleton.
      * intros x. rewrite map_app, elem_of_app, elem_of_union, elem_of_singleton.
        cbn [map key]. rewrite list_elem_of_singleton, (Hkeys x). tauto.
      * apply Forall_app. split; [exact Hent|]. constructor; [|constructor].
        cbn [key question answer]. split; [exact Htext|].
        destruct b; [left | right]; reflexivity.
    + cbn [question_count]. rewrite <- Hsize. lia.
  - assert (Hall : forall k, k ∈ catalog -> k ∈ asked_symptoms s)
      by (apply all_asked_when_full; assumption).
    unfold get_next_question. fold catalog.
    rewrite (filter_all_asked _ catalog Hall). rewrite bind_Ok. cbv beta iota.
    exists s. split; [reflexivity|]. split; [exact Hok|]. rewrite <- Hsize. lia.
Qed.

Lemma clicks_run (clicks : list bool) (s : session) :
  session_ok s ->
  exists s', foldM click clicks s = Ok s' /\ session_ok s'
             /\ question_count s' = Nat.min (question_count s + length clicks) 36.
Proof.
  revert s; induction clicks as [|b clicks IH]; intros s Hok.
  - exists s. split; [reflexivity|]. split; [exact Hok|].
    destruct Hok as ((_ & Hsub & Hsize) & _).
    pose proof (asked_size_le _ Hsub). simpl. lia.
  - destruct (click_step s b Hok) as (s1 & Hs1 & Hok1 & Hc1).
    destruct (IH s1 Hok1) as (s' & Hs' & Hok' & Hc').
    exists s'. split; [simpl; rewrite Hs1, bind_Ok; exact Hs'|].
    split; [exact Hok'|]. rewrite Hc', Hc1. simpl. lia.
Qed.

End Session.

(** X17: the metrics at the top of the page.  On a session whose
    posterior is a distribution, [leading_diagnosis] returns the largest
    probability, the first index at which it occurs (ties go to the earlier
    diagnosis) and the diagnosis at that index; the largest probability of 8
    entries summing to 1 is at least 1/8. *)
Theorem leading_diagnosis_first_max :
  forall s : streamlit_app.session,
    is_distribution (streamlit_app.current_P s) ->
    exists (m : R) (i : nat) (d : string),
      streamlit_app.leading_diagnosis s = Ok (m, i, d)
      /\ streamlit_app.current_P s !! i = Some m
      /\ data.DIAGNOSES !! i = Some d
      /\ (forall p, p ∈ streamlit_app.current_P s -> p <= m)
      /\ (forall j, (j < i)%nat -> streamlit_app.current_P s !! j <> Some m)
      /\ 1 / 8 <= m <= 1.
Proof.
  intros s HP.
  destruct (leading_Ok _ HP) as (m & i & d & Hm & Hi & Hd & H1 & H2 & H3 & H4 & H5).
  exists m, i, d. split.
  - unfold streamlit_app.leading_diagnosis.
    rewrite Hm, bind_Ok, Hi, bind_Ok, Hd, bind_Ok. reflexivity.
  - repeat (split; [assumption|]). exact H5.
Qed.

Lemma leading_diagnosis_first_max_witness :
  is_distribution (streamlit_app.current_P streamlit_app.init_session)
  /\ exists (m : R) (d : string),
       streamlit_app.leading_diagnosis streamlit_app.init_session = Ok (m, 0%nat, d).
Proof.
  assert (HP : is_distribution (streamlit_app.current_P streamlit_app.init_session))
    by exact uniform_distribution.
  split; [exact HP|].
  destruct (leading_diagnosis_first_max streamlit_app.init_session HP)
    as (m & i & d & Hret & Hi & _ & _ & Hfirst & _).
  destruct i as [|i]; [exists m, d; exact Hret|].
  exfalso. apply (Hfirst 0%nat); [lia|].
  assert (Hin : m ∈ replicate 8 data.PRIOR_PROBABILITY)
    by (eapply list_elem_of_lookup_2; exact Hi).
  apply elem_of_replicate in Hin as [-> _]. reflexivity.
Defined.

(** X18: whatever buttons are pressed, the session stays consistent.
    From [init_session], any sequence of clicks runs without raising; the
    state reached satisfies [session_ok], and its question count is the
    number of clicks, capped at 36: once every symptom has been asked a
    further click changes nothing. *)
Theorem session_after_clicks :
  forall clicks : list bool,
    exists s : streamlit_app.session,
      foldM streamlit_app.click clicks streamlit_app.init_session = Ok s
      /\ session_ok s
      /\ streamlit_app.question_count s = Nat.min (length clicks) 36.
Proof.
  intros clicks.
  destruct (clicks_run clicks streamlit_app.init_session init_session_ok)
    as (s & Hrun & Hok & Hcount).
  exists s. split; [exact Hrun|]. split; [exact Hok | exact Hcount].
Qed.

Section Threshold.
Import data engine analysis.

Lemma not_confident (P : list R) (m : R) :
  py_max P = Ok m -> m < 0.90 -> ~ confident P.
Proof.
  intros Hm Hlow (m' & Hm' & Hhigh). rewrite Hm in Hm'. injection Hm' as <-. lra.
Qed.

Lemma ask_in_order_first (target : string) (answers : gmap string bool)
    (order : list string) (P : list R) (count : nat) :
  target ∈ DIAGNOSES -> (forall k, k ∈ order -> k ∈ catalog) ->
  is_distribution P ->
  exists d,
    ask_in_order target answers order P count = Ok (count + d)%nat
    /\ (d <= length order)%nat
    /\ (forall j, (j < d)%nat ->
          exists Pj, replay target answers (take j order) P = Ok Pj
                     /\ ~ confident Pj)
    /\ ((d < length order)%nat ->
          exists Pd, replay target answers (take d order) P = Ok Pd
                     /\ confident Pd).
Proof.
  intros Ht. revert P count; induction order as [|k order IH];
    intros P count Hin HP.
  - exists 0%nat. split; [simpl; f_equal; lia|]. split; [simpl; lia|].
    split; [intros j Hj; lia | simpl; lia].
  - cbn [ask_in_order].
    destruct (py_max_spec P (distribution_nonempty P HP)) as (m & Hm & _).
    rewrite Hm, bind_Ok. destruct (Rle_dec 0.90 m) as [Hhi | Hlo].
    + exists 0%nat. split; [f_equal; lia|]. split; [simpl; lia|].
      split; [intros j Hj; lia|]. intros _. exists P.
      split; [reflexivity|]. exists m. split; [exact Hm | exact Hhi].
    + assert (Hk : k ∈ catalog) by (apply Hin; left).
      destruct (most_likely_answer_Ok target k Ht Hk) as (b & Hb).
      rewrite Hb, bind_Ok. cbv zeta.
      destruct (bayesian_update_posterior P k (default b (answers !! k)) HP Hk)
        as [Hupd HD].
      rewrite Hupd, bind_Ok.
      destruct (IH (posterior P k (default b (answers !! k))) (S count))
        as (d & Hd & Hle & Hbefore & Hat);
        [intros x Hx; apply Hin; now right | exact HD |].
      exists (S d). split; [rewrite Hd; f_equal; lia|]. split; [simpl; lia|].
      split.
      * intros [|j] Hj.
        -- exists P. split; [reflexivity|]. apply (not_confident P m Hm). lra.
        -- destruct (Hbefore j ltac:(lia)) as (Pj & HPj & Hnc).
           exists Pj. split; [|exact Hnc].
           cbn [take replay]. rewrite Hb, bind_Ok, Hupd, bind_Ok. exact HPj.
      * intros Hlt. destruct (Hat ltac:(simpl in Hlt; lia)) as (Pd & HPd & Hc).
        exists Pd. split; [|exact Hc].
        cbn [take replay]. rewrite Hb, bind_Ok, Hupd, bind_Ok. exact HPd.
Qed.

End Threshold.

(** X19: the [for] loop of [simulate_random_ordering] and
    [simulate_frequency_based_ordering] stops at the first moment the
    threshold is met.  For a catalog target and any order of catalog
    symptoms, started on the uniform prior, it returns a count [n] at most
    the length of the order; the posterior after each shorter prefix of the
    order has its largest entry below 0.90, and if [n] is less than the
    length the posterior after the first [n] symptoms has reached 0.90. *)
Theorem ask_in_order_stops_at_threshold :
  forall (target : string) (answers : gmap string bool) (order : list string),
    target ∈ data.DIAGNOSES ->
    (forall k, k ∈ order -> k ∈ catalog) ->
    exists n : nat,
      analysis.ask_in_order target answers order uniform 0 = Ok n
      /\ (n <= length order)%nat
      /\ (forall j, (j < n)%nat ->
            exists Pj, replay target answers (take j order) uniform = Ok Pj
                       /\ ~ confident Pj)
      /\ ((n < length order)%nat ->
            exists Pn, replay target answers (take n order) uniform = Ok Pn
                       /\ confident Pn).
Proof.
  intros target answers order Ht Hin.
  destruct (ask_in_order_first target answers order uniform 0 Ht Hin
              uniform_distribution) as (d & Hd & Hle & Hbefore & Hat).
  exists d. split; [exact Hd|]. split; [exact Hle|]. split; assumption.
Qed.

Lemma ask_in_order_stops_at_threshold_witness :
  exists n : nat,
    analysis.ask_in_order "Migraine" ∅ ["S1"; "S2"] uniform 0 = Ok n
    /\ (n <= 2)%nat.
Proof.
  destruct (ask_in_order_stops_at_threshold "Migraine" ∅ ["S1"; "S2"] Migraine_known)
    as (n & Hn & Hle & _).
  - intros k Hk. apply elem_of_cons in Hk as [-> | Hk]; [exact S1_in_catalog|].
    apply list_elem_of_singleton in Hk as ->. right. left.
  - exists n. split; [exact Hn | exact Hle].
Defined.
